(** * csv-exporter: the tabular record store and the CSV export/import pipeline

    A shallow embedding of [src/main.py] (the [PandasModel] table model and
    the [CompanyTab] operations), together with the Python and pandas
    primitives the code relies on, and the properties of the specification
    stated over it.

    Conventions of the embedding:
    - a Python [str] is the list of its Unicode code points ([pystr]);
    - a pandas object cell is a [cell]: a string, a Python int or NaN;
    - a [DataFrame] carries its column labels and its rows; its index is
      always the default range index at the places where the code reads it;
    - file-system effects are explicit state passing over a finite map from
      paths to file contents, I/O failures are scripted by an [io_script];
    - message boxes and Qt signals are logged in lists. *)

From Stdlib Require Import ZArith NArith Lia Bool.
From Stdlib Require Import Strings.String Strings.Ascii Numbers.DecimalString.
From Stdlib Require DecimalPos.
From Stdlib Require Import Floats.SpecFloat.
From stdpp Require Import base list gmap.

Local Open Scope Z_scope.

(* ===================================================================== *)
(** * Python strings *)
(* ===================================================================== *)

(** A Python [str]: the sequence of its code points. *)
Definition pystr := list N.

(** An ASCII literal as a Python string. *)
Definition lit (s : string) : pystr :=
  map N_of_ascii (list_ascii_of_string s).

Definition SPACE : N := 32.
Definition NBSP : N := 160.  (* " " *)
Definition CR : N := 13.
Definition LF : N := 10.
Definition DOT : N := 46.
Definition COMMA : N := 44.
Definition HASH : N := 35.

(** [str.isspace] on one code point: the characters CPython's
    [Py_UNICODE_ISSPACE] accepts (bidirectional type WS, B or S, or
    category Zs). *)
Definition isspace (c : N) : bool :=
  ((9 <=? c) && (c <=? 13) || (28 <=? c) && (c <=? 32)
   || (c =? 133) || (c =? 160) || (c =? 5760)
   || (8192 <=? c) && (c <=? 8202)
   || (c =? 8232) || (c =? 8233) || (c =? 8239) || (c =? 8287)
   || (c =? 12288))%N.

Fixpoint lstrip (s : pystr) : pystr :=
  match s with
  | c :: r => if isspace c then lstrip r else s
  | [] => []
  end.

Definition rstrip (s : pystr) : pystr := rev (lstrip (rev s)).

(** [s.strip()] *)
Definition strip (s : pystr) : pystr := rstrip (lstrip s).

(** [s.replace(old, new)] for a one-character [old]. *)
Definition replace (old : N) (new : pystr) (s : pystr) : pystr :=
  flat_map (fun c => if (c =? old)%N then new else [c]) s.

(* ===================================================================== *)
(** * Cells *)
(* ===================================================================== *)

(** The objects found in a cell of an object-dtype frame of this program:
    text, a Python int (written by [add_row]) or NaN (a missing value). *)
Inductive cell :=
| CStr (s : pystr)
| CInt (n : Z)
| CNaN.

Global Instance cell_eq_dec : EqDecision cell.
Proof. solve_decision. Defined.

(** [str(x)] *)
Definition py_str (x : cell) : pystr :=
  match x with
  | CStr s => s
  | CInt n => lit (NilZero.string_of_int (Z.to_int n))
  | CNaN => lit "nan"
  end.

(* ===================================================================== *)
(** * [money_to_csv] *)
(* ===================================================================== *)

(** [[
def money_to_csv(s: str) -> str:
    s = str(s).strip()
    if not s:
        return ''
    s = s.replace(' ', '').replace('\u00A0', '')
    s = s.replace('.', '#').replace(',', '.').replace('#', '')
    return s
]] *)
Definition money_to_csv (x : cell) : pystr :=
  let s := strip (py_str x) in
  match s with
  | [] => []
  | _ =>
    let s := replace NBSP [] (replace SPACE [] s) in
    replace HASH [] (replace COMMA [DOT] (replace DOT [HASH] s))
  end.

(* ===================================================================== *)
(** * Python sequences: slices *)
(* ===================================================================== *)

(** The position a slice bound [i] denotes in a sequence of length [n]:
    negative bounds count from the end, and every bound is clamped. *)
Definition slice_bound (n : nat) (i : Z) : nat :=
  Z.to_nat (if i <? 0 then Z.max (i + Z.of_nat n) 0 else Z.min i (Z.of_nat n)).

(** [l[:stop]], [l[start:]] and [l[start:stop]] *)
Definition slice_to {A} (stop : Z) (l : list A) : list A :=
  take (slice_bound (length l) stop) l.

Definition slice_from {A} (start : Z) (l : list A) : list A :=
  drop (slice_bound (length l) start) l.

Definition slice {A} (start stop : Z) (l : list A) : list A :=
  take (slice_bound (length l) stop - slice_bound (length l) start)
       (drop (slice_bound (length l) start) l).

(** The positions [l[start:stop]] selects. *)
Definition slice_positions (n : nat) (start stop : Z) : list nat :=
  seq (slice_bound n start) (slice_bound n stop - slice_bound n start).

(* ===================================================================== *)
(** * Data frames *)
(* ===================================================================== *)

(** A pandas [DataFrame] with object cells, row by row.  The row labels are
    the default range index [0 .. len-1] wherever the program reads them:
    every frame is built by the readers, by [pd.concat(..., ignore_index=True)]
    or by [reset_index(drop=True)]. *)
Record DataFrame := {
  columns : list pystr;
  values : list (list cell)
}.

(** Every row has one cell per column. *)
Definition frame_ok (df : DataFrame) : Prop :=
  Forall (fun r => length r = length (columns df)) (values df).

(** [col in df.columns] *)
Definition has_column (c : pystr) (df : DataFrame) : bool :=
  bool_decide (c ∈ columns df).

(** The positions of the columns labelled [c]. *)
Fixpoint positions_from (c : pystr) (i : nat) (cs : list pystr) : list nat :=
  match cs with
  | [] => []
  | c' :: r =>
    if decide (c' = c) then i :: positions_from c (S i) r
    else positions_from c (S i) r
  end.

Definition positions (c : pystr) (df : DataFrame) : list nat :=
  positions_from c 0 (columns df).

Definition cell_at (r : list cell) (j : nat) : cell := default CNaN (r !! j).

(** [df[col] = v] for a scalar [v]: a new column is appended, an existing
    one is overwritten. *)
Definition setitem_scalar (c : pystr) (v : cell) (df : DataFrame) : DataFrame :=
  if has_column c df then
    {| columns := columns df;
       values := (fun r => imap (fun j x =>
                   if bool_decide (j ∈ positions c df) then v else x) r)
                 <$> values df |}
  else
    {| columns := columns df ++ [c];
       values := (fun r => r ++ [v]) <$> values df |}.

(** [df[cols]] for a list of labels: every column carrying one of the labels,
    in the order of the list; [None] is the [KeyError] for a missing label. *)
Definition getitem_list (cs : list pystr) (df : DataFrame) : option DataFrame :=
  if forallb (fun c => has_column c df) cs then
    let ps := flat_map (fun c => positions c df) cs in
    Some {| columns := (fun j => default [] (columns df !! j)) <$> ps;
            values := (fun r => cell_at r <$> ps) <$> values df |}
  else None.

(** [df.fillna(v)] *)
Definition fillna (v : cell) (df : DataFrame) : DataFrame :=
  {| columns := columns df;
     values := (fun r : list cell =>
                  (fun x => match x with CNaN => v | _ => x end) <$> r)
               <$> values df |}.

(** [df[col].tolist()] for a label that names one column; [None] is the
    [KeyError]. *)
Definition column_tolist (c : pystr) (df : DataFrame) : option (list cell) :=
  match positions c df with
  | j :: _ => Some ((fun r => cell_at r j) <$> values df)
  | [] => None
  end.

(** [df[col] = df[col].map(f)] *)
Definition map_column (c : pystr) (f : cell -> cell) (df : DataFrame) : DataFrame :=
  {| columns := columns df;
     values := (fun r => imap (fun j x =>
                 if bool_decide (j ∈ positions c df) then f x else x) r)
               <$> values df |}.

(** [df.at[label, col]] on the range index; [None] is the [KeyError]. *)
Definition at_get (label : Z) (c : pystr) (df : DataFrame) : option cell :=
  match positions c df with
  | j :: _ =>
    if (0 <=? label) && (label <? Z.of_nat (length (values df))) then
      (fun r => cell_at r j) <$> values df !! Z.to_nat label
    else None
  | [] => None
  end.

(** [df.at[label, col] = v].  A label of the index and an existing column:
    the cell is updated in place.  Otherwise pandas falls back to [loc] and
    enlarges the frame, by a column, by a row, or both; the cells it has to
    invent are NaN. *)
Definition at_set (label : Z) (c : pystr) (v : cell) (df : DataFrame) : DataFrame :=
  let df1 := if has_column c df then df else setitem_scalar c CNaN df in
  match positions c df1 with
  | j :: _ =>
    if (0 <=? label) && (label <? Z.of_nat (length (values df1))) then
      {| columns := columns df1;
         values := alter (fun r => <[j := v]> r) (Z.to_nat label) (values df1) |}
    else
      {| columns := columns df1;
         values := values df1 ++
           [<[j := v]> (replicate (length (columns df1)) CNaN)] |}
  | [] => df1
  end.

(** The canonical schema. *)
Definition COLUMNS : list pystr :=
  [ lit "PO_No."; lit "Amount"; lit "CCY/RON"; lit "Payer Account IBAN";
    lit "Payee Name"; lit "Payee address 1"; lit "Payee address 2";
    lit "Payee CUI"; lit "Payee Account IBAN";
    lit "Details 1"; lit "Details 2"; lit "Details 3";
    lit "Processing date"; lit "Processing Method" ].

(** [pd.DataFrame(columns=COLUMNS)] *)
Definition empty_frame : DataFrame := {| columns := COLUMNS; values := [] |}.

(* ===================================================================== *)
(** * The table model ([PandasModel]) *)
(* ===================================================================== *)

(** What the model tells its views and listeners. *)
Inductive signal :=
| BeginInsertRows (first last : Z)
| EndInsertRows
| BeginRemoveRows (first last : Z)
| EndRemoveRows
| DataChangedSignal.

Record PandasModel := {
  _df : DataFrame;
  emitted : list signal    (* oldest first *)
}.

Definition rowCount (m : PandasModel) : Z := Z.of_nat (length (values (_df m))).
Definition columnCount (m : PandasModel) : Z := Z.of_nat (length (columns (_df m))).

Definition emit (m : PandasModel) (df : DataFrame) (ss : list signal) : PandasModel :=
  {| _df := df; emitted := emitted m ++ ss |}.

(** [[
def insertRows(self, position, rows=1, parent=QModelIndex()):
    self.beginInsertRows(QModelIndex(), position, position + rows - 1)
    empty = pd.DataFrame([[''] * self.columnCount() for _ in range(rows)],
                         columns=self._df.columns)
    top = self._df.iloc[:position]
    bottom = self._df.iloc[position:]
    self._df = pd.concat([top, empty, bottom], ignore_index=True)
    self.endInsertRows()
    self.dataChangedSignal.emit()
    return True
]] *)
Definition insertRows (position rows : Z) (m : PandasModel) : bool * PandasModel :=
  let df := _df m in
  let empty := replicate (Z.to_nat rows)
                 (replicate (length (columns df)) (CStr [])) in
  let top := slice_to position (values df) in
  let bottom := slice_from position (values df) in
  (true,
   emit m {| columns := columns df; values := top ++ empty ++ bottom |}
     [BeginInsertRows position (position + rows - 1); EndInsertRows;
      DataChangedSignal]).

(** [df.drop(df.index[start:stop])]: the rows whose label is one of the
    sliced labels go; on the range index these are the sliced positions. *)
Definition drop_rows {A} (start stop : Z) (l : list A) : list A :=
  let ps := slice_positions (length l) start stop in
  omap (fun '(i, x) => if bool_decide (i ∈ ps) then None else Some x)
       (imap (fun i x => (i, x)) l).

(** [[
def removeRows(self, position, rows=1, parent=QModelIndex()):
    if position < 0 or position >= self.rowCount():
        return False
    self.beginRemoveRows(QModelIndex(), position,
                         min(position + rows - 1, self.rowCount() - 1))
    self._df = self._df.drop(self._df.index[position:position + rows]) \
                   .reset_index(drop=True)
    self.endRemoveRows()
    self.dataChangedSignal.emit()
    return True
]] *)
Definition removeRows (position rows : Z) (m : PandasModel) : bool * PandasModel :=
  if (position <? 0) || (position >=? rowCount m) then (false, m)
  else
    let df := _df m in
    (true,
     emit m {| columns := columns df;
               values := drop_rows position (position + rows) (values df) |}
       [BeginRemoveRows position (Z.min (position + rows - 1) (rowCount m - 1));
        EndRemoveRows; DataChangedSignal]).

(* ===================================================================== *)
(** * Python numbers: [str.isdigit], [int], [float], float formatting *)
(* ===================================================================== *)

(** What the interpreter contributes beyond the ASCII range: the Unicode
    digit tables and the limit on the length of integer literals.  The
    functions below consult the tables on non-ASCII code points only. *)
Record Runtime := {
  unicode_isdigit : N -> bool;          (* Py_UNICODE_ISDIGIT *)
  unicode_todecimal : N -> option N;    (* Py_UNICODE_TODECIMAL, a value below 10 *)
  int_max_str_digits : nat              (* sys.get_int_max_str_digits(), 0 = no limit *)
}.

(** A runtime whose tables are those of CPython on the code points below
    U+0100: the superscripts U+00B2, U+00B3 and U+00B9 are digits without a
    decimal value.  Used to evaluate the model on concrete inputs. *)
Definition latin1_runtime : Runtime :=
  {| unicode_isdigit := fun c => ((c =? 178) || (c =? 179) || (c =? 185))%N;
     unicode_todecimal := fun _ => None;
     int_max_str_digits := 4300 |}.

Definition is_ascii_digit (c : N) : bool := ((48 <=? c) && (c <=? 57))%N.

(** [Py_ISSPACE]: the C locale's white space. *)
Definition c_isspace (c : N) : bool := ((9 <=? c) && (c <=? 13) || (c =? 32))%N.

Definition char_isdigit (rt : Runtime) (c : N) : bool :=
  if (c <? 128)%N then is_ascii_digit c else unicode_isdigit rt c.

(** [s.isdigit()] *)
Definition isdigit (rt : Runtime) (s : pystr) : bool :=
  match s with
  | [] => false
  | _ => forallb (char_isdigit rt) s
  end.

(** [_PyUnicode_TransformDecimalAndSpaceToASCII]: what [int] and [float]
    do to their argument before parsing it. *)
Fixpoint to_ascii (rt : Runtime) (s : pystr) : pystr :=
  match s with
  | [] => []
  | c :: r =>
    if (c <? 127)%N then c :: to_ascii rt r
    else if isspace c then SPACE :: to_ascii rt r
    else match (if (c <? 128)%N then None else unicode_todecimal rt c) with
         | Some d => (48 + d)%N :: to_ascii rt r
         | None => [63%N]
         end
  end.

Fixpoint c_lstrip (s : pystr) : pystr :=
  match s with
  | c :: r => if c_isspace c then c_lstrip r else s
  | [] => []
  end.

Definition c_strip (s : pystr) : pystr := rev (c_lstrip (rev (c_lstrip s))).

(** The value of a run of ASCII digits. *)
Definition digits_value (ds : pystr) : Z :=
  fold_left (fun acc c => 10 * acc + (Z.of_N c - 48)) ds 0.

(** Digits with single underscores between them, as [int] scans them:
    [s] is made of digits and underscores, no underscore follows another
    one ([prev_us] tells whether the character before [s] was one) and the
    last character is a digit. *)
Fixpoint int_body_ok (prev_us : bool) (s : pystr) : bool :=
  match s with
  | [] => negb prev_us
  | c :: r =>
    if (c =? 95)%N then negb prev_us && int_body_ok true r
    else is_ascii_digit c && int_body_ok false r
  end.

Definition split_sign (s : pystr) : bool * pystr :=
  match s with
  | 45%N :: r => (true, r)
  | 43%N :: r => (false, r)
  | _ => (false, s)
  end.

(** [int(s)] for a string; [None] is the [ValueError]. *)
Definition py_int (rt : Runtime) (s : pystr) : option Z :=
  let '(neg, body) := split_sign (c_strip (to_ascii rt s)) in
  match body with
  | c :: _ =>
    if is_ascii_digit c && int_body_ok false body then
      let ds := filter (fun c => c ≠ 95%N) body in
      let lim := int_max_str_digits rt in
      if (640 <? length ds)%nat && (0 <? lim)%nat && (lim <? length ds)%nat
      then None
      else Some (if neg then - digits_value ds else digits_value ds)
    else None
  | [] => None
  end.

(** A Python float: an IEEE 754 binary64 value. *)
Definition float := spec_float.
Definition fadd : float -> float -> float := SFadd 53 1024.

(** The binary64 value nearest to [n / d] (ties to even). *)
Definition nearest_ratio (neg : bool) (n d : positive) : float :=
  SFdiv 53 1024 (S754_finite neg n 0) (S754_finite false d 0).

(** The binary64 value nearest to [mant * 10^e10]. *)
Definition nearest_decimal (neg : bool) (mant e10 : Z) : float :=
  match mant with
  | Zpos m =>
    if 0 <=? e10 then nearest_ratio neg (m * Z.to_pos (10 ^ e10)) 1
    else nearest_ratio neg m (Z.to_pos (10 ^ (- e10)))
  | _ => S754_zero neg
  end.

Fixpoint span_digits (s : pystr) : pystr * pystr :=
  match s with
  | c :: r =>
    if is_ascii_digit c then let '(ds, rest) := span_digits r in (c :: ds, rest)
    else ([], s)
  | [] => ([], [])
  end.

(** ASCII lower-casing ([Py_TOLOWER]). *)
Definition c_tolower (c : N) : N :=
  if ((65 <=? c) && (c <=? 90))%N then (c + 32)%N else c.

(** The exponent part of a float literal: consumed only when complete. *)
Definition parse_exponent (s : pystr) : Z * pystr :=
  match s with
  | c :: r =>
    if (c_tolower c =? 101)%N then
      let '(neg, r') := split_sign r in
      match span_digits r' with
      | ([], _) => (0, s)
      | (ds, rest) => ((if neg then - digits_value ds else digits_value ds), rest)
      end
    else (0, s)
  | [] => (0, [])
  end.

(** [_Py_string_to_number_with_underscores]: the underscores go, each one
    has to stand between two digits. *)
Fixpoint drop_underscores (prev : N) (s : pystr) : option pystr :=
  match s with
  | [] => if (prev =? 95)%N then None else Some []
  | c :: r =>
    if (c =? 95)%N then
      if is_ascii_digit prev then drop_underscores c r else None
    else if (prev =? 95)%N && negb (is_ascii_digit c) then None
    else (fun t => c :: t) <$> drop_underscores c r
  end.

(** [float(s)] for a string; [None] is the [ValueError]. *)
Definition py_float (rt : Runtime) (s : pystr) : option float :=
  match drop_underscores 0%N (to_ascii rt s) with
  | None => None
  | Some t =>
    let '(neg, body) := split_sign (c_strip t) in
    let low := map c_tolower body in
    if decide (low = lit "inf" ∨ low = lit "infinity") then Some (S754_infinity neg)
    else if decide (low = lit "nan") then Some S754_nan
    else
      let '(ip, r1) := span_digits body in
      let '(fp, r2) := match r1 with
                       | 46%N :: r => span_digits r
                       | _ => ([], r1)
                       end in
      match ip ++ fp with
      | [] => None
      | ds =>
        match parse_exponent r2 with
        | (e, []) => Some (nearest_decimal neg (digits_value ds)
                             (e - Z.of_nat (length fp)))
        | _ => None
        end
      end
  end.

(** Decimal digits of a natural number. *)
Definition decimal (n : N) : pystr := lit (NilZero.string_of_uint (N.to_uint n)).

(** Commas between groups of three digits, counted from the right. *)
Fixpoint group3_rev (ds : pystr) : pystr :=
  match ds with
  | a :: b :: c :: ((_ :: _) as r) => a :: b :: c :: COMMA :: group3_rev r
  | _ => ds
  end.

Definition group3 (ds : pystr) : pystr := rev (group3_rev (rev ds)).

(** The integer nearest to [n / d], ties to even. *)
Definition round_half_even (n d : Z) : Z :=
  let q := n / d in
  let r := n mod d in
  match 2 * r ?= d with
  | Lt => q
  | Gt => q + 1
  | Eq => if Z.even q then q else q + 1
  end.

(** [f"{x:,.2f}"] *)
Definition format_2f (x : float) : pystr :=
  let sign (s : bool) := if s then [45%N] else [] in
  let body (cents : Z) :=
    let frac := decimal (Z.to_N (cents mod 100)) in
    group3 (decimal (Z.to_N (cents / 100))) ++ [DOT] ++
    (if (length frac <? 2)%nat then [48%N] else []) ++ frac in
  match x with
  | S754_nan => lit "nan"
  | S754_infinity s => sign s ++ lit "inf"
  | S754_zero s => sign s ++ body 0
  | S754_finite s m e =>
    sign s ++ body (if 0 <=? e then Z.pos m * 2 ^ e * 100
                    else round_half_even (Z.pos m * 100) (2 ^ (- e)))
  end.

(* ===================================================================== *)
(** * Regular expressions: the fragment [IBAN_REGEX] is written in *)
(* ===================================================================== *)

Inductive atom :=
| LITERAL (c : N)
| IN (ranges : list (N * N)).

Inductive node :=
| AT_BEGINNING                       (* ^ *)
| AT_END                             (* $ *)
| ONE (a : atom)
| MAX_REPEAT (min : nat) (a : atom). (* a{min,} *)

(** Lower-casing as the matcher applies it under [re.IGNORECASE] to a
    character of the subject.  It is exact on every code point whose lower
    case is an ASCII character (the capitals, U+0130 and the Kelvin sign
    U+212A) and leaves the others alone, which is all a pattern of ASCII
    characters can observe. *)
Definition sre_lower (c : N) : N :=
  if ((65 <=? c) && (c <=? 90))%N then (c + 32)%N
  else if (c =? 304)%N then 105%N
  else if (c =? 8490)%N then 107%N
  else c.

(** The characters that count as a lower-case ASCII letter although their
    lower case differs: dotless i for [i] and long s for [s]. *)
Definition ignorecase_fixes (lo : N) : list N :=
  if (lo =? 105)%N then [305%N]
  else if (lo =? 115)%N then [383%N]
  else [].

(** Code points [lo .. hi]. *)
Definition code_range (lo hi : N) : list N :=
  map (fun k => (lo + N.of_nat k)%N) (seq 0 (N.to_nat (hi + 1 - lo))).

(** The character map compiled for an atom under [re.IGNORECASE]. *)
Definition charmap (a : atom) : list N :=
  match a with
  | LITERAL c => sre_lower c :: ignorecase_fixes (sre_lower c)
  | IN ranges =>
    flat_map (fun '(lo, hi) =>
      flat_map (fun i => sre_lower i :: ignorecase_fixes (sre_lower i))
               (code_range lo hi)) ranges
  end.

Definition atom_match (a : atom) (c : N) : bool :=
  bool_decide (sre_lower c ∈ charmap a).

(** [$] without [re.MULTILINE]: at the end, or before a final newline. *)
Definition at_end (s : pystr) : bool :=
  match s with
  | [] => true
  | [c] => (c =? LF)%N
  | _ => false
  end.

(** The greedy repetition [a{n,}] followed by the rest of the pattern [k]:
    as many characters as [a] accepts, giving back one at a time until the
    rest matches. *)
Fixpoint max_repeat (a : atom) (k : bool -> pystr -> bool) (n : nat)
    (start : bool) (s : pystr) {struct s} : bool :=
  match s with
  | c :: s' =>
    (atom_match a c && max_repeat a k (pred n) false s')
    || (bool_decide (n = 0%nat) && k start s)
  | [] => bool_decide (n = 0%nat) && k start []
  end.

(** [pattern.match(s)] with [re.IGNORECASE]: does a prefix of the subject
    match?  [start] tells whether the position is the start of the subject. *)
Fixpoint sre_match (re : list node) (start : bool) (s : pystr) {struct re} : bool :=
  match re with
  | [] => true
  | AT_BEGINNING :: re' => start && sre_match re' start s
  | AT_END :: re' => at_end s && sre_match re' start s
  | ONE a :: re' =>
    match s with
    | c :: s' => atom_match a c && sre_match re' false s'
    | [] => false
    end
  | MAX_REPEAT n a :: re' => max_repeat a (sre_match re') n start s
  end.

(** [IBAN_REGEX = re.compile(r"^RO[A-Z0-9]{2,}$", re.IGNORECASE)] *)
Definition IBAN_REGEX : list node :=
  [ AT_BEGINNING; ONE (LITERAL 82); ONE (LITERAL 79);
    MAX_REPEAT 2 (IN [(65, 90); (48, 57)]%N); AT_END ].

(** [IBAN_REGEX.match(text)], as a truth value. *)
Definition iban_match (text : pystr) : bool := sre_match IBAN_REGEX true text.

(* ===================================================================== *)
(** * The company tab ([CompanyTab]) *)
(* ===================================================================== *)

Inductive dialog :=
| Warning (title text : pystr)
| Critical (title text : pystr)
| Information (title text : pystr).

Record CompanyTab := {
  model : PandasModel;
  path_edit : pystr;
  no_header_chk : bool;
  crlf_chk : bool;
  bom_chk : bool;
  total_label : pystr;
  dialogs : list dialog    (* the message boxes shown so far, oldest first *)
}.

Definition with_model (m : PandasModel) (tab : CompanyTab) : CompanyTab :=
  {| model := m; path_edit := path_edit tab; no_header_chk := no_header_chk tab;
     crlf_chk := crlf_chk tab; bom_chk := bom_chk tab;
     total_label := total_label tab; dialogs := dialogs tab |}.

Definition with_label (s : pystr) (tab : CompanyTab) : CompanyTab :=
  {| model := model tab; path_edit := path_edit tab;
     no_header_chk := no_header_chk tab; crlf_chk := crlf_chk tab;
     bom_chk := bom_chk tab; total_label := s; dialogs := dialogs tab |}.

Definition show (d : dialog) (tab : CompanyTab) : CompanyTab :=
  {| model := model tab; path_edit := path_edit tab;
     no_header_chk := no_header_chk tab; crlf_chk := crlf_chk tab;
     bom_chk := bom_chk tab; total_label := total_label tab;
     dialogs := dialogs tab ++ [d] |}.

Definition PO_NO : pystr := lit "PO_No.".
Definition AMOUNT : pystr := lit "Amount".
Definition PAYER_IBAN : pystr := lit "Payer Account IBAN".
Definition PAYEE_IBAN : pystr := lit "Payee Account IBAN".

(** File contents, and the files by path. *)
Definition bytes := list N.
Abbreviation files := (gmap pystr bytes).

Inductive encoding := UTF_8 | UTF_8_SIG.

Record csv_format := {
  header : bool;
  encoding_of : encoding;
  lineterminator : pystr
}.

(** What the operating system does to one export: [write_fails] makes
    [to_csv] raise, after leaving the given contents (if any) in the file it
    was writing; [remove_fails] and [replace_fails] make [os.remove] and
    [os.replace] raise.  Each carries the text of the exception. *)
Record io_script := {
  write_fails : option (option bytes * pystr);
  remove_fails : option pystr;
  replace_fails : option pystr
}.

Definition no_faults : io_script :=
  {| write_fails := None; remove_fails := None; replace_fails := None |}.

Inductive export_result :=
| NoPath                     (* no destination chosen: nothing attempted *)
| KeyError (col : pystr)     (* an exception the method does not catch *)
| ExportError (msg : pystr)  (* caught, shown as "Export error" *)
| Exported.

Section Tab.

Context (rt : Runtime).

(** The sum [update_total] accumulates:
[[
s = 0.0
for x in self.model._df["Amount"].tolist():
    if str(x).strip():
        try:
            s += float(money_to_csv(x))
        except:
            pass
]] *)
Definition add_amount (s : float) (x : cell) : float :=
  match strip (py_str x) with
  | [] => s
  | _ =>
    match py_float rt (money_to_csv x) with
    | Some v => fadd s v
    | None => s
    end
  end.

Definition amount_sum (xs : list cell) : float :=
  fold_left add_amount xs (S754_zero false).

(** [[
def update_total(self):
    try:
        s = 0.0
        ...
        self.total_label.setText(f"Total: {s:,.2f}".replace(",", "X")
                                 .replace(".", ",").replace("X", "."))
    except Exception:
        self.total_label.setText("Total : 0.00")
]] *)
Definition update_total (tab : CompanyTab) : CompanyTab :=
  match column_tolist AMOUNT (_df (model tab)) with
  | Some xs =>
    with_label
      (replace 88 [DOT] (replace DOT [COMMA] (replace COMMA [88%N]
         (lit "Total: " ++ format_2f (amount_sum xs))))) tab
  | None => with_label (lit "Total : 0.00") tab
  end.

(** The number [add_row] computes for the new row; [None] is an exception
    raised inside its [try]. *)
Definition next_po (position : Z) (df : DataFrame) : option Z :=
  if 0 <? position then
    match at_get (position - 1) PO_NO df with
    | Some prev =>
      if isdigit rt (py_str prev) then py_int rt (py_str prev)
      else Some (position + 1)
    | None => None
    end
  else Some 1.

(** [[
def add_row(self, position=None):
    if position is None:
        position = self.model.rowCount()
    self.model.insertRows(position, 1)
    # PO_No. auto-increment
    try:
        if position > 0:
            prev = self.model._df.at[position - 1, "PO_No."]
            n = int(str(prev)) if str(prev).isdigit() else position + 1
        else:
            n = 1
        self.model._df.at[position, "PO_No."] = n
    except Exception:
        pass
]] *)
Definition add_row (position : option Z) (tab : CompanyTab) : CompanyTab :=
  let position := default (rowCount (model tab)) position in
  let m := (insertRows position 1 (model tab)).2 in
  let tab := update_total (with_model m tab) in
  match next_po position (_df m) with
  | Some n =>
    with_model {| _df := at_set position PO_NO (CInt n) (_df m);
                  emitted := emitted m |} tab
  | None => tab
  end.


(** The schema coercion of [load_data]:
[[
for col in COLUMNS:
    if col not in df.columns:
        df[col] = ''
df = df[COLUMNS].fillna('')
]] *)
Definition add_missing (df : DataFrame) : DataFrame :=
  fold_left (fun d col => if has_column col d then d
                          else setitem_scalar col (CStr []) d) COLUMNS df.

Definition coerce (df : DataFrame) : option DataFrame :=
  fillna (CStr []) <$> getitem_list COLUMNS (add_missing df).

(** [load_data]: [picked] is the path the file dialog returned, [read] what
    [pd.read_csv] or [pd.read_excel] did with it: the frame read, or the
    text of the exception raised. *)
Definition load_data (picked : pystr) (read : pystr + DataFrame)
    (tab : CompanyTab) : CompanyTab :=
  match picked with
  | [] => tab
  | _ =>
    match read with
    | inl e => show (Critical (lit "Import error") e) tab
    | inr df =>
      match coerce df with
      | Some df' => update_total (with_model {| _df := df'; emitted := [] |} tab)
      | None => show (Critical (lit "Import error") (lit "KeyError")) tab
      end
    end
  end.

(** The cleaning applied to every cell before it is written:
    [str(x).replace("\r", " ").replace("\n", " ").strip()] *)
Definition clean_text (x : cell) : cell :=
  CStr (strip (replace LF [SPACE] (replace CR [SPACE] (py_str x)))).

(** The copy of the frame that is written: amounts normalised, then every
    column cleaned. *)
Definition normalized (df : DataFrame) : DataFrame :=
  let df1 := if has_column AMOUNT df
             then map_column AMOUNT (fun x => CStr (money_to_csv x)) df
             else df in
  fold_left (fun d col => map_column col clean_text d) (columns df1) df1.

(** The rows of one column that fail the IBAN check, numbered from 1. *)
Definition bad_rows (col : pystr) (vals : list cell) : list (Z * pystr) :=
  omap (fun '(i, val) =>
          let text := strip (py_str val) in
          match text with
          | [] => None
          | _ => if iban_match text then None
                 else Some (Z.of_nat i + 1, col)
          end)
       (imap (fun i x => (i, x)) vals).

Definition iban_warnings (df : DataFrame) : pystr + list (Z * pystr) :=
  match column_tolist PAYER_IBAN df with
  | None => inl PAYER_IBAN
  | Some payer =>
    match column_tolist PAYEE_IBAN df with
    | None => inl PAYEE_IBAN
    | Some payee => inr (bad_rows PAYER_IBAN payer ++ bad_rows PAYEE_IBAN payee)
    end
  end.

Fixpoint join (sep : pystr) (l : list pystr) : pystr :=
  match l with
  | [] => []
  | [x] => x
  | x :: r => x ++ sep ++ join sep r
  end.

(** [repr] of a list of (row, column) pairs. *)
Definition repr_bad (bad : list (Z * pystr)) : pystr :=
  lit "[" ++
  join (lit ", ")
    (map (fun '(i, c) => lit "(" ++ py_str (CInt i) ++ lit ", '" ++ c ++ lit "')") bad)
  ++ lit "]".

(** The serialiser of pandas, [DataFrame.to_csv], is outside the program. *)
Context (to_csv : DataFrame -> csv_format -> bytes).

(** The file writes of [export_csv]:
[[
tmp = path + ".tmp"
df.to_csv(tmp, index=False, header=header, encoding=encoding,
          lineterminator=line_ending)
if os.path.exists(path):
    os.remove(path)
os.replace(tmp, path)
]] The result is the text of the exception raised, if any, and the files
    as they are left. *)
Definition save (io : io_script) (path : pystr) (data : bytes) (fs : files)
  : option pystr * files :=
  let tmp := path ++ lit ".tmp" in
  match write_fails io with
  | Some (left_behind, msg) =>
    (Some msg, match left_behind with
               | Some d => <[tmp := d]> fs
               | None => fs
               end)
  | None =>
    let fs1 := <[tmp := data]> fs in
    match fs1 !! path, remove_fails io with
    | Some _, Some msg => (Some msg, fs1)
    | _, _ =>
      let fs2 := delete path fs1 in
      match replace_fails io, fs2 !! tmp with
      | Some msg, _ => (Some msg, fs2)
      | None, Some d => (None, <[path := d]> (delete tmp fs2))
      | None, None => (Some (lit "FileNotFoundError"), fs2)
      end
    end
  end.

(** [export_csv] *)
Definition export_csv (io : io_script) (tab : CompanyTab) (fs : files)
  : export_result * CompanyTab * files :=
  let path := strip (path_edit tab) in
  match path with
  | [] => (NoPath, show (Warning (lit "No path") (lit "Choose a CSV path first.")) tab, fs)
  | _ =>
    let df := normalized (_df (model tab)) in
    match iban_warnings df with
    | inl col => (KeyError col, tab, fs)
    | inr bad =>
      let tab :=
        match bad with
        | [] => tab
        | _ => show (Warning (lit "Validation")
                 (lit "Some IBANs look invalid (should start with RO). Sample rows: "
                  ++ repr_bad (take 5 bad))) tab
        end in
      let fmt := {| header := negb (no_header_chk tab);
                    encoding_of := if bom_chk tab then UTF_8_SIG else UTF_8;
                    lineterminator := if crlf_chk tab then [CR; LF] else [LF] |} in
      match save io path (to_csv df fmt) fs with
      | (Some e, fs') => (ExportError e, show (Critical (lit "Export error") e) tab, fs')
      | (None, fs') =>
        (Exported,
         show (Information (lit "Exported") (lit "CSV saved:" ++ [LF] ++ path)) tab,
         fs')
      end
    end
  end.

End Tab.

(* ===================================================================== *)
(** * The IBAN shape, in words *)
(* ===================================================================== *)

Definition ascii_alnum (c : N) : Prop :=
  (48 <= c <= 57 ∨ 65 <= c <= 90 ∨ 97 <= c <= 122)%N.

(** The wording of the specification, for a given notion of alphanumeric
    character: the letters R and O in either case, then two or more
    alphanumeric characters. *)
Definition shape_of (alnum : N -> Prop) (v : pystr) : Prop :=
  ∃ r o rest,
    v = r :: o :: rest
    ∧ (r = 82 ∨ r = 114)%N ∧ (o = 79 ∨ o = 111)%N
    ∧ (2 <= length rest)%nat ∧ Forall alnum rest.

Definition claimed_iban_shape : pystr -> Prop := shape_of ascii_alnum.

(** The same wording read as a test of the beginning of the value only. *)
Definition prefix_shape_of (alnum : N -> Prop) (v : pystr) : Prop :=
  ∃ r o body rest,
    v = r :: o :: body ++ rest
    ∧ (r = 82 ∨ r = 114)%N ∧ (o = 79 ∨ o = 111)%N
    ∧ (2 <= length body)%nat ∧ Forall alnum body.

(** The characters [[A-Z0-9]] accepts under [re.IGNORECASE]: the ASCII
    letters and digits, and the four letters whose case folding lands in
    [a-z] (U+0130, U+0131, U+017F and the Kelvin sign U+212A). *)
Definition iban_char (c : N) : Prop :=
  ascii_alnum c ∨ (c = 304 ∨ c = 305 ∨ c = 383 ∨ c = 8490)%N.

(** What the pattern accepts: R and O in either case, two or more
    [iban_char]s, and then the end or one final line feed. *)
Definition iban_shape (v : pystr) : Prop :=
  ∃ r o body tail,
    v = r :: o :: body ++ tail
    ∧ (r = 82 ∨ r = 114)%N ∧ (o = 79 ∨ o = 111)%N
    ∧ (2 <= length body)%nat ∧ Forall iban_char body
    ∧ (tail = [] ∨ tail = [LF]).

(** A string of ASCII digits. *)
Definition all_ascii_digits (ds : pystr) : Prop :=
  Forall (fun c => is_ascii_digit c = true) ds.

(** The schema columns a frame lacks, in the order of [cs]. *)
Definition missing_of (cs : list pystr) (df : DataFrame) : list pystr :=
  filter (fun c => c ∉ columns df) cs.

(* ===================================================================== *)
(** * Sample data *)
(* ===================================================================== *)

Definition text (s : string) : cell := CStr (lit s).

(** An empty field. *)
Definition blank : cell := CStr [].

(** A record of the schema: order number, amount, payer and payee account,
    first details line; the other fields empty. *)
Definition record (po amount payer payee details : pystr) : list cell :=
  [ CStr po; CStr amount; blank; CStr payer; blank; blank; blank;
    blank; CStr payee; CStr details; blank; blank; blank; blank ].

Definition store (rows : list (list cell)) : PandasModel :=
  {| _df := {| columns := COLUMNS; values := rows |}; emitted := [] |}.

Definition tab_of (rows : list (list cell)) (path : pystr) : CompanyTab :=
  {| model := store rows; path_edit := path;
     no_header_chk := true; crlf_chk := true; bom_chk := true;
     total_label := lit "Total : 0.00"; dialogs := [] |}.

Definition three_rows : PandasModel :=
  store [ record (lit "1") [] [] [] []; record (lit "2") [] [] [] [];
          record (lit "3") [] [] [] [] ].

(** A source file with the amount before the order number, a column the
    schema does not know, and the other schema columns absent. *)
Definition sample_source : DataFrame :=
  {| columns := [lit "Amount"; lit "Comment"; lit "PO_No."];
     values := [ [text "10,5"; text "urgent"; text "7"];
                 [CNaN; blank; text "8"] ] |}.

(** The first column of a table. *)
Definition po_column (tab : CompanyTab) : list cell :=
  (fun r => cell_at r 0) <$> values (_df (model tab)).

(** A toy serialiser, for running [export_csv]. *)
Definition toy_csv (df : DataFrame) (fmt : csv_format) : bytes :=
  concat ((fun r => join [COMMA] (py_str <$> r) ++ lineterminator fmt)
          <$> values df).

(** A record with a line break in its details and a foreign account. *)
Definition sample_record : list cell :=
  record (lit "7") (lit "1.000,00") (lit "RO49AAAA1234567890123456")
         (lit "FR1420041010050500013M02606") (lit "rent" ++ [LF] ++ lit "May ").

Definition sample_tab : CompanyTab := tab_of [sample_record] (lit " out.csv ").

(** The disk is full: the temporary file is left half written. *)
Definition disk_full : io_script :=
  {| write_fails := Some (Some (lit "7,1000"), lit "No space left on device");
     remove_fails := None; replace_fails := None |}.

Definition old_files : files := {[ lit "out.csv" := lit "previous export" ]}.

(* ===================================================================== *)
(** * The table model: reading and writing one cell *)
(* ===================================================================== *)

(** A [QModelIndex]: the invalid index, or a row and a column. *)
Inductive QModelIndex :=
| InvalidIndex
| Index (row column : Z).

(** [index.isValid()] *)
Definition isValid (index : QModelIndex) : bool :=
  match index with
  | Index r c => (0 <=? r) && (0 <=? c)
  | InvalidIndex => false
  end.


Inductive role := DisplayRole | EditRole | ForegroundRole | OtherRole.

(** What [data] returns: [None], a text, or a brush of some colour. *)
Inductive variant :=
| NoData
| Text (s : pystr)
| Brush (color : pystr).

(** An integer subscript on a sequence of length [n], as Python reads it:
    negative subscripts count from the end; [None] is the [IndexError]. *)
Definition subscript (n : nat) (i : Z) : option nat :=
  if (0 <=? i) && (i <? Z.of_nat n) then Some (Z.to_nat i)
  else if (- Z.of_nat n <=? i) && (i <? 0) then Some (Z.to_nat (i + Z.of_nat n))
  else None.

(** [df.iat[row, col]] *)
Definition iat_get (row col : Z) (df : DataFrame) : option cell :=
  match subscript (length (values df)) row,
        subscript (length (columns df)) col with
  | Some i, Some j => (fun r => cell_at r j) <$> values df !! i
  | _, _ => None
  end.

(** [df.iat[row, col] = v] *)
Definition iat_set (row col : Z) (v : cell) (df : DataFrame) : option DataFrame :=
  match subscript (length (values df)) row,
        subscript (length (columns df)) col with
  | Some i, Some j =>
    Some {| columns := columns df;
            values := alter (fun r => <[j := v]> r) i (values df) |}
  | _, _ => None
  end.

(** [pd.isna(x)] *)
Definition isna (x : cell) : bool :=
  match x with
  | CNaN => true
  | _ => false
  end.

Definition RED : pystr := lit "#b00020".

(** [[
def data(self, index, role=Qt.DisplayRole):
    if not index.isValid():
        return None
    val = self._df.iat[index.row(), index.column()]
    if role in (Qt.DisplayRole, Qt.EditRole):
        return '' if pd.isna(val) else str(val)
    if role == Qt.ForegroundRole and self._df.columns[index.column()] in (
            'Payer Account IBAN', 'Payee Account IBAN'):
        text = '' if pd.isna(val) else str(val).strip()
        if text and not IBAN_REGEX.match(text):
            return QBrush(QColor('#b00020'))
    return None
]] The outer [None] is the [IndexError] of [iat]. *)
Definition data (index : QModelIndex) (r : role) (m : PandasModel)
  : option variant :=
  match index with
  | Index row col =>
    if isValid index then
      match iat_get row col (_df m) with
      | None => None
      | Some val =>
        match r with
        | DisplayRole | EditRole =>
          Some (Text (if isna val then [] else py_str val))
        | ForegroundRole =>
          match subscript (length (columns (_df m))) col
                ≫= (fun j => columns (_df m) !! j) with
          | Some label =>
            if bool_decide (label = PAYER_IBAN ∨ label = PAYEE_IBAN) then
              match (if isna val then [] else strip (py_str val)) with
              | [] => Some NoData
              | text => if iban_match text then Some NoData
                        else Some (Brush RED)
              end
            else Some NoData
          | None => None
          end
        | OtherRole => Some NoData
        end
      end
    else Some NoData
  | InvalidIndex => Some NoData
  end.

(** [[
def setData(self, index, value, role=Qt.EditRole):
    if role == Qt.EditRole and index.isValid():
        self._df.iat[index.row(), index.column()] = value
        self.dataChanged.emit(index, index, [Qt.DisplayRole, Qt.EditRole])
        self.dataChangedSignal.emit()
        return True
    return False
]] The result is the value returned, the indexes [dataChanged] was emitted
    for, and the model; [None] is the [IndexError] of [iat]. *)
Definition setData (index : QModelIndex) (value : cell) (r : role)
    (m : PandasModel) : option (bool * list QModelIndex * PandasModel) :=
  match r, index with
  | EditRole, Index row col =>
    if isValid index then
      match iat_set row col value (_df m) with
      | Some df => Some (true, [index], emit m df [DataChangedSignal])
      | None => None
      end
    else Some (false, [], m)
  | _, _ => Some (false, [], m)
  end.

Section TabEvents.

Context (rt : Runtime).

(** An edit committed by the table view: the delegate calls
    [model.setData(index, value, Qt.EditRole)], and [update_total] is
    connected to [dataChangedSignal]. *)
Definition edit_cell (index : QModelIndex) (value : cell) (tab : CompanyTab)
  : option CompanyTab :=
  match setData index value EditRole (model tab) with
  | Some (true, _, m) => Some (update_total rt (with_model m tab))
  | Some (false, _, _) => Some tab
  | None => None
  end.


(** The label is the one [update_total] would write now. *)
Definition label_current (tab : CompanyTab) : Prop :=
  total_label tab = total_label (update_total rt tab).

End TabEvents.

(** The amounts of a table. *)
Definition amounts (tab : CompanyTab) : option (list cell) :=
  column_tolist AMOUNT (_df (model tab)).


(** The options [export_csv] passes to [to_csv]:
[[
header = not self.no_header_chk.isChecked()
encoding = 'utf-8-sig' if self.bom_chk.isChecked() else 'utf-8'
line_ending = '\r\n' if self.crlf_chk.isChecked() else '\n'
]] *)
Definition format_of (tab : CompanyTab) : csv_format :=
  {| header := negb (no_header_chk tab);
     encoding_of := if bom_chk tab then UTF_8_SIG else UTF_8;
     lineterminator := if crlf_chk tab then [CR; LF] else [LF] |}.

(** What becomes of one character of an amount: spaces, no-break spaces,
    dots and hash signs go, a comma becomes a dot, anything else stays. *)
Definition money_char (c : N) : pystr :=
  if bool_decide (c = SPACE ∨ c = NBSP ∨ c = DOT ∨ c = HASH) then []
  else if bool_decide (c = COMMA) then [DOT]
  else [c].

(* ===================================================================== *)
(** * The main window ([MainWindow]): its tabs *)
(* ===================================================================== *)

(** One page of [self.tabs]: the text on its tab, and the company tab with
    its [company_name]. *)
Record Page := {
  tab_text : pystr;
  company_name : pystr;
  widget : CompanyTab
}.

Section Window.

Context (rt : Runtime).

(** [CompanyTab(name)], as [__init__] and [init_ui] leave it: an empty
    table with the schema's columns, no destination, the three options
    checked, and the label as [update_total] writes it. *)
Definition new_tab : CompanyTab :=
  update_total rt
    {| model := {| _df := empty_frame; emitted := [] |};
       path_edit := []; no_header_chk := true; crlf_chk := true;
       bom_chk := true; total_label := lit "Total : 0.00"; dialogs := [] |}.

(** [[
def add_company_tab(self):
    tab = CompanyTab(f'Company {self.tabs.count()+1}')
    idx = self.tabs.addTab(tab, tab.company_name)
    self.tabs.setCurrentIndex(idx)
    tab.titleChanged.connect(self._rename_tab)
]] *)
Definition add_company_tab (tabs : list Page) : list Page :=
  let name := lit "Company " ++ py_str (CInt (Z.of_nat (length tabs) + 1)) in
  tabs ++ [{| tab_text := name; company_name := name; widget := new_tab |}].

(** [[
def _rename_tab(self, widget, new_title: str):
    idx = self.tabs.indexOf(widget)
    if idx != -1:
        self.tabs.setTabText(idx, new_title)
]] The widget is named by its position among the pages; a position that
    is not one stands for a widget that is not in [self.tabs]. *)
Definition _rename_tab (i : nat) (new_title : pystr) (tabs : list Page)
  : list Page :=
  alter (fun p => {| tab_text := new_title; company_name := company_name p;
                     widget := widget p |}) i tabs.

(** [[
def _emit_title_change(self):
    self.company_name = self.name_edit.text().strip()
    self.titleChanged.emit(self, self.company_name or 'Firma')
]] for the page at position [i], with [text] in its name field. *)
Definition _emit_title_change (i : nat) (text : pystr) (tabs : list Page)
  : list Page :=
  let name := strip text in
  _rename_tab i (match name with [] => lit "Firma" | _ => name end)
    (alter (fun p => {| tab_text := tab_text p; company_name := name;
                        widget := widget p |}) i tabs).

(** [[
def remove_tab(self, idx):
    if idx < 0:
        return
    name = self.tabs.tabText(idx)
    if QMessageBox.question(self, 'Sterge Firma', ...) == QMessageBox.Yes:
        w = self.tabs.widget(idx)
        self.tabs.removeTab(idx)
        w.deleteLater()
        if self.tabs.count() == 0:
            self.add_company_tab()
]] [yes] is the answer to the question.  [None] is the [AttributeError] of
    [w.deleteLater()] when there is no page at [idx]. *)
Definition remove_tab (idx : Z) (yes : bool) (tabs : list Page)
  : option (list Page) :=
  if idx <? 0 then Some tabs
  else if yes then
    match tabs !! Z.to_nat idx with
    | Some _ =>
      match delete (Z.to_nat idx) tabs with
      | [] => Some (add_company_tab [])
      | rest => Some rest
      end
    | None => None
    end
  else Some tabs.

End Window.

(* ===================================================================== *)
(** * Facts about the string primitives *)
(* ===================================================================== *)

Section StringFacts.

Implicit Types (s t : pystr) (c : N).

Lemma lstrip_split s :
  ∃ p, s = p ++ lstrip s ∧ Forall (fun c => isspace c = true) p.
Proof.
  induction s as [|c r [p [Hr Hp]]]; simpl.
  - by exists [].
  - destruct (isspace c) eqn:Hc.
    + exists (c :: p). split; [simpl; by rewrite <- Hr | by constructor].
    + by exists [].
Qed.

Lemma lstrip_head s c r : lstrip s = c :: r -> isspace c = false.
Proof.
  induction s as [|c' r' IH]; simpl; [done|].
  destruct (isspace c') eqn:Hc; [done|]. by intros [= <- _].
Qed.

Lemma lstrip_fixed c r : isspace c = false -> lstrip (c :: r) = c :: r.
Proof. simpl. by intros ->. Qed.

Lemma rstrip_split s :
  ∃ q, s = rstrip s ++ q ∧ Forall (fun c => isspace c = true) q.
Proof.
  destruct (lstrip_split (rev s)) as [p [Hs Hp]].
  exists (rev p). split.
  - unfold rstrip. rewrite <- rev_app_distr, <- Hs. by rewrite rev_involutive.
  - by apply Forall_rev.
Qed.

Lemma rstrip_last s r c : rstrip s = r ++ [c] -> isspace c = false.
Proof.
  unfold rstrip. intros H.
  apply (lstrip_head (rev s) c (rev r)).
  rewrite <- (rev_involutive (lstrip (rev s))), H, rev_app_distr. done.
Qed.

Lemma rstrip_fixed r c : isspace c = false -> rstrip (r ++ [c]) = r ++ [c].
Proof.
  intros Hc. unfold rstrip.
  rewrite rev_app_distr. simpl. rewrite Hc. simpl. by rewrite rev_involutive.
Qed.

(** What [strip] returns is framed by white space in its argument. *)
Lemma strip_split s :
  ∃ p q, s = p ++ strip s ++ q
         ∧ Forall (fun c => isspace c = true) p
         ∧ Forall (fun c => isspace c = true) q.
Proof.
  destruct (lstrip_split s) as [p [Hs Hp]].
  destruct (rstrip_split (lstrip s)) as [q [Hl Hq]].
  exists p, q. split; [|done]. unfold strip. by rewrite <- Hl.
Qed.

Lemma elem_of_strip s c : c ∈ strip s -> c ∈ s.
Proof.
  destruct (strip_split s) as (p & q & Hs & _). intros Hc.
  rewrite Hs. set_solver.
Qed.

(** The result of [strip] neither starts nor ends with white space. *)
Lemma strip_head s c r : strip s = c :: r -> isspace c = false.
Proof.
  unfold strip. intros H.
  destruct (rstrip_split (lstrip s)) as [q [Hl Hq]].
  rewrite H in Hl. simpl in Hl.
  by apply (lstrip_head s c (r ++ q)).
Qed.

Lemma strip_last s r c : strip s = r ++ [c] -> isspace c = false.
Proof. apply rstrip_last. Qed.

Lemma strip_fixed t :
  (∀ c r, t = c :: r -> isspace c = false) ->
  (∀ r c, t = r ++ [c] -> isspace c = false) ->
  strip t = t.
Proof.
  intros Hh Hl. unfold strip.
  destruct t as [|c r]; [done|].
  rewrite (lstrip_fixed c r) by (by eapply Hh).
  destruct (exists_last (l := c :: r)) as (r' & c' & E); [done|].
  rewrite E. apply rstrip_fixed. by eapply Hl.
Qed.

Lemma strip_idemp s : strip (strip s) = strip s.
Proof.
  apply strip_fixed; intros ? ? H.
  - by eapply strip_head. 
  - by eapply strip_last.
Qed.

Lemma strip_no_space t :
  Forall (fun c => isspace c = false) t -> strip t = t.
Proof.
  intros H. apply strip_fixed; intros ? ? ->.
  - by inversion H.
  - apply Forall_app in H as [_ H]. by inversion H.
Qed.

Lemma elem_of_replace old new s c :
  c ∈ replace old new s ↔ (c ∈ s ∧ c ≠ old) ∨ (c ∈ new ∧ old ∈ s).
Proof.
  unfold replace. rewrite list_elem_of_In, in_flat_map.
  setoid_rewrite <- list_elem_of_In.
  split.
  - intros (x & Hx & Hc). destruct (N.eqb_spec x old) as [->|Hne].
    + by right.
    + left. apply list_elem_of_singleton in Hc as ->. done.
  - intros [[Hc Hne]|[Hc Ho]].
    + exists c. split; [done|]. destruct (N.eqb_spec c old); [done|]. set_solver.
    + exists old. split; [done|]. by rewrite N.eqb_refl.
Qed.

Lemma replace_absent old new s : old ∉ s -> replace old new s = s.
Proof.
  unfold replace. induction s as [|c r IH]; [done|].
  intros H. apply not_elem_of_cons in H as [Hne Hr]. simpl.
  destruct (N.eqb_spec c old); [congruence|]. simpl. by rewrite IH.
Qed.

End StringFacts.

(* ===================================================================== *)
(** * [money_to_csv] *)
(* ===================================================================== *)

Lemma elem_of_replace_del old (s : pystr) c :
  c ∈ replace old [] s ↔ c ∈ s ∧ c ≠ old.
Proof.
  rewrite elem_of_replace. split; [|tauto].
  intros [?|[H _]]; [done|]. by apply elem_of_nil in H.
Qed.

Lemma elem_of_replace_one old new (s : pystr) c :
  c ∈ replace old [new] s ↔ (c ∈ s ∧ c ≠ old) ∨ (c = new ∧ old ∈ s).
Proof. rewrite elem_of_replace. by rewrite list_elem_of_singleton. Qed.

(** The characters of a normalised amount, traced back through the five
    replacements. *)
Lemma elem_of_money_to_csv x c :
  c ∈ money_to_csv x ->
  c ≠ HASH ∧ c ≠ COMMA ∧ c ≠ SPACE ∧ c ≠ NBSP
  ∧ ((c = DOT ∧ COMMA ∈ py_str x) ∨ (c ≠ DOT ∧ c ∈ strip (py_str x))).
Proof.
  unfold money_to_csv.
  destruct (strip (py_str x)) as [|a t] eqn:E; [by intros ?%elem_of_nil|].
  assert (Hs : ∀ d, d ∈ a :: t -> d ∈ py_str x).
  { intros d Hd. apply elem_of_strip. by rewrite E. }
  generalize dependent (a :: t). intros t0 _ Hs.
  rewrite elem_of_replace_del, elem_of_replace_one, elem_of_replace_one.
  rewrite !elem_of_replace_del.
  intros [H4 Hh]. destruct H4 as [[H3 Hco]|[-> Hcomma]].
  - destruct H3 as [[H2 Hd]|[-> _]]; [|done].
    destruct H2 as [[Hc Hsp] Hnb]. repeat split; try done. by right.
  - repeat split; try done. left. split; [done|].
    rewrite elem_of_replace_one, !elem_of_replace_del in Hcomma.
    destruct Hcomma as [[[[H _] _] _]|[Hx _]]; [by apply Hs|discriminate Hx].
Qed.

(** A string without white space, dots, commas and hashes is a fixed point. *)
Lemma money_to_csv_fixed (s : pystr) :
  Forall (fun c => isspace c = false ∧ c ≠ DOT ∧ c ≠ COMMA ∧ c ≠ HASH) s ->
  money_to_csv (CStr s) = s.
Proof.
  intros H. unfold money_to_csv. simpl.
  rewrite strip_no_space by (eapply Forall_impl; [exact H|]; by intros ? []).
  destruct s as [|a t]; [done|].
  rewrite Forall_forall in H.
  assert (Ha : ∀ d, isspace d = true ∨ d = DOT ∨ d = COMMA ∨ d = HASH -> d ∉ a :: t).
  { intros d Hd Hin. destruct (H d Hin) as (? & ? & ? & ?).
    destruct Hd as [?|[?|[?|?]]]; congruence. }
  rewrite (replace_absent SPACE) by (apply Ha; by left).
  rewrite (replace_absent NBSP) by (apply Ha; by left).
  rewrite (replace_absent DOT) by (apply Ha; tauto).
  rewrite (replace_absent COMMA) by (apply Ha; tauto).
  by rewrite (replace_absent HASH) by (apply Ha; tauto).
Qed.




(** White space inside an amount other than spaces survives. *)
Example money_to_csv_keeps_tab :
  money_to_csv (CStr (lit "1" ++ [9%N] ++ lit "2")) = lit "1" ++ [9%N] ++ lit "2".
Proof. reflexivity. Qed.

(** C2, as stated, fails: a second normalisation drops the dot the first
    one wrote for the decimal comma. *)
Lemma money_to_csv_not_idempotent :
  money_to_csv (CStr (money_to_csv (CStr (lit "1,5"))))
  ≠ money_to_csv (CStr (lit "1,5")).
Proof. vm_compute. discriminate. Qed.

(** Nor is a canonical dot-decimal value left alone. *)
Example money_to_csv_canonical_changes :
  money_to_csv (CStr (lit "1234.56")) = lit "123456".
Proof. reflexivity. Qed.

(** C2, amended: [money_to_csv] is idempotent on every string that holds no
    comma and no white space other than spaces and non-breaking spaces. *)
Theorem money_to_csv_idempotent_without_comma (s : pystr) :
  COMMA ∉ s ->
  (∀ c, c ∈ s -> isspace c = true -> c = SPACE ∨ c = NBSP) ->
  money_to_csv (CStr (money_to_csv (CStr s))) = money_to_csv (CStr s).
Proof.
  intros Hcomma Hws. apply money_to_csv_fixed.
  apply Forall_forall. intros c Hc.
  destruct (elem_of_money_to_csv _ _ Hc) as (Hh & Hco & Hsp & Hnb & [[_ H]|[Hd H]]).
  { done. }
  simpl in H. apply elem_of_strip in H.
  repeat split; try done.
  destruct (isspace c) eqn:E; [|done].
  destruct (Hws c H E); congruence.
Qed.

Lemma money_to_csv_idempotent_without_comma_witness :
  money_to_csv (CStr (money_to_csv (CStr (lit " 1.234 567 "))))
  = money_to_csv (CStr (lit " 1.234 567 ")).
Proof.
  apply money_to_csv_idempotent_without_comma.
  - vm_compute. intros H. repeat (apply elem_of_cons in H as [H|H]; [discriminate|]).
    by apply elem_of_nil in H.
  - intros c H. vm_compute in H.
    repeat (apply elem_of_cons in H as [->|H]; [vm_compute; intros; (discriminate || tauto)|]).
    by apply elem_of_nil in H.
Defined.

(* ===================================================================== *)
(** * Deleting rows *)
(* ===================================================================== *)

Section Rows.

Local Open Scope nat_scope.

(** Dropping the rows labelled [a .. a+k-1] from rows labelled from [o]. *)
Lemma omap_drop_range {A} (l : list A) (a k o : nat) :
  omap (fun '(i, x) => if bool_decide (i ∈ seq a k) then None else Some x)
       (imap (fun i x => (o + i, x)) l)
  = take (a - o) l ++ drop (a + k - o) l.
Proof.
  revert o. induction l as [|x l IH]; intros o.
  - by rewrite take_nil, drop_nil.
  - cbn [imap omap list_omap]. rewrite Nat.add_0_r.
    rewrite (imap_ext _ (fun i x => (S o + i, x))) by (intros; simpl; f_equal; lia).
    rewrite IH. case_bool_decide as Hin; rewrite elem_of_seq in Hin.
    + replace (a - o) with 0 by lia. replace (a - S o) with 0 by lia.
      replace (a + k - o) with (S (a + k - S o)) by lia. done.
    + destruct (decide (o < a)).
      * replace (a - o) with (S (a - S o)) by lia.
        replace (a + k - o) with (S (a + k - S o)) by lia. done.
      * replace (a - o) with 0 by lia. replace (a - S o) with 0 by lia.
        replace (a + k - o) with 0 by lia. replace (a + k - S o) with 0 by lia.
        done.
Qed.

Lemma drop_rows_spec {A} (start stop : Z) (l : list A) :
  drop_rows start stop l
  = take (slice_bound (length l) start) l
    ++ drop (slice_bound (length l) start
             + (slice_bound (length l) stop - slice_bound (length l) start)) l.
Proof.
  unfold drop_rows, slice_positions.
  pose proof (omap_drop_range l (slice_bound (length l) start)
    (slice_bound (length l) stop - slice_bound (length l) start) 0) as H.
  rewrite !Nat.sub_0_r in H. exact H.
Qed.

(** Inside the table, a deletion of [rows >= 1] rows keeps what precedes
    [position] and what follows the deleted rows. *)
Lemma drop_rows_inside {A} (position rows : Z) (l : list A) :
  (0 <= position < Z.of_nat (length l))%Z -> (1 <= rows)%Z ->
  drop_rows position (position + rows) l
  = take (Z.to_nat position) l ++ drop (Z.to_nat (position + rows)) l.
Proof.
  intros Hp Hr. rewrite drop_rows_spec. unfold slice_bound.
  destruct (Z.ltb_spec position 0); [lia|].
  destruct (Z.ltb_spec (position + rows) 0); [lia|].
  rewrite (Z.min_l position) by lia. f_equal.
  destruct (Z.le_ge_cases (position + rows) (Z.of_nat (length l))).
  - rewrite Z.min_l by lia. f_equal. lia.
  - rewrite Z.min_r by lia. rewrite !drop_ge; [done|lia..].
Qed.

End Rows.

(** C8: a deletion at a position that is negative, or not below the number
    of rows, returns [False] and leaves the model as it was: the same
    records, and no signal emitted. *)
Theorem removeRows_out_of_range (position rows : Z) (m : PandasModel) :
  position < 0 ∨ rowCount m <= position ->
  removeRows position rows m = (false, m).
Proof.
  intros H. unfold removeRows.
  destruct (Z.ltb_spec position 0); [done|].
  destruct (Z.geb_spec position (rowCount m)); [done|lia].
Qed.


Lemma removeRows_out_of_range_witness :
  removeRows 3 1 three_rows = (false, three_rows)
  ∧ removeRows (-1) 1 three_rows = (false, three_rows).
Proof.
  split; apply removeRows_out_of_range; vm_compute.
  - right. discriminate.
  - by left.
Defined.


(* ===================================================================== *)
(** * Columns by label *)
(* ===================================================================== *)

Section Frames.

Local Open Scope nat_scope.

Implicit Types (c : pystr) (cs : list pystr) (df : DataFrame).

Lemma elem_of_positions_from c i cs j :
  j ∈ positions_from c i cs ↔ ∃ k, j = i + k ∧ cs !! k = Some c.
Proof.
  revert i. induction cs as [|c' r IH]; intros i; simpl.
  - split; [by intros ?%elem_of_nil | by intros (k & _ & ?)].
  - destruct (decide (c' = c)) as [->|Hne].
    + rewrite elem_of_cons, IH. split.
      * intros [->|(k & -> & Hk)]; [exists 0 | exists (S k)];
          (split; [lia|done]).
      * intros (k & -> & Hk). destruct k as [|k]; [left; lia|].
        right. exists k. split; [lia|done].
    + rewrite IH. split.
      * intros (k & -> & Hk). exists (S k). split; [lia|done].
      * intros (k & -> & Hk). destruct k as [|k]; [by injection Hk|].
        exists k. split; [lia|done].
Qed.

Lemma elem_of_positions c df j :
  j ∈ positions c df ↔ columns df !! j = Some c.
Proof.
  unfold positions. rewrite elem_of_positions_from. split.
  - by intros (k & -> & Hk).
  - intros H. by exists j.
Qed.

Lemma positions_from_absent c i cs : c ∉ cs -> positions_from c i cs = [].
Proof.
  revert i. induction cs as [|c' r IH]; intros i H; [done|].
  apply not_elem_of_cons in H as [Hne Hr]. simpl.
  destruct (decide (c' = c)); [congruence|]. by apply IH.
Qed.

(** With distinct labels, a label names one column. *)
Lemma positions_from_unique c i cs k :
  NoDup cs -> cs !! k = Some c -> positions_from c i cs = [i + k].
Proof.
  intros Hnd. revert i k. induction Hnd as [|c' r Hnotin Hnd IH]; intros i k Hk.
  - done.
  - simpl. destruct k as [|k]; simpl in Hk.
    + injection Hk as ->. destruct (decide (c = c)); [|done].
      rewrite positions_from_absent by done. f_equal. lia.
    + destruct (decide (c' = c)) as [->|Hne].
      * exfalso. apply Hnotin. by eapply list_elem_of_lookup_2.
      * rewrite (IH (S i) k) by done. f_equal. lia.
Qed.

Lemma positions_unique c df k :
  NoDup (columns df) -> columns df !! k = Some c -> positions c df = [k].
Proof. intros. unfold positions. by rewrite (positions_from_unique c 0 _ k). Qed.

Lemma has_column_true c df : has_column c df = true ↔ c ∈ columns df.
Proof. unfold has_column. apply bool_decide_eq_true. Qed.

Lemma has_column_false c df : has_column c df = false ↔ c ∉ columns df.
Proof. unfold has_column. apply bool_decide_eq_false. Qed.

(** [map_column] cell by cell. *)
Lemma map_column_values c f df :
  values (map_column c f df)
  = (fun r => imap (fun j x =>
       if bool_decide (columns df !! j = Some c) then f x else x) r)
    <$> values df.
Proof.
  unfold map_column. simpl. apply list_fmap_ext.
  intros _ r _. apply imap_ext. intros j x _.
  by rewrite (bool_decide_ext _ _ (elem_of_positions c df j)).
Qed.

(** Mapping [f] over the columns [cs] one after the other, as the loop of
    [export_csv] does. *)
Lemma map_columns_values (f : cell -> cell) cs df :
  NoDup cs ->
  let d := fold_left (fun d col => map_column col f d) cs df in
  columns d = columns df
  ∧ values d
    = (fun r => imap (fun j x =>
         match columns df !! j with
         | Some c => if bool_decide (c ∈ cs) then f x else x
         | None => x
         end) r) <$> values df.
Proof.
  intros Hnd. revert df. induction Hnd as [|c cs Hnotin Hnd IH]; intros df; simpl.
  - split; [done|]. rewrite <- (list_fmap_id (values df)) at 1.
    apply list_fmap_ext. intros _ r _. unfold id.
    apply list_eq. intros j. rewrite list_lookup_imap.
    destruct (r !! j); [|done]. simpl. by destruct (columns df !! j).
  - destruct (IH (map_column c f df)) as [Hc Hv]. split; [by rewrite Hc|].
    rewrite Hv, map_column_values, <- list_fmap_compose.
    apply list_fmap_ext. intros _ r _. simpl.
    apply list_eq. intros j. rewrite !list_lookup_imap.
    destruct (r !! j) as [x|]; [|done]. simpl. f_equal.
    destruct (columns df !! j) as [c'|]; [|by rewrite bool_decide_eq_false_2].
    destruct (decide (c' = c)) as [->|Hne].
    + rewrite (bool_decide_eq_false_2 (c ∈ cs)) by done.
      rewrite (bool_decide_eq_true_2 (Some c = Some c)) by done.
      by rewrite (bool_decide_eq_true_2 (c ∈ c :: cs)) by left.
    + rewrite (bool_decide_eq_false_2 (Some c' = Some c)) by congruence.
      rewrite (bool_decide_ext (c' ∈ c :: cs) (c' ∈ cs)); [done|].
      rewrite elem_of_cons. split; [intros [?|?]; [congruence|done] | by right].
Qed.

End Frames.

(* ===================================================================== *)
(** * The cells that are exported *)
(* ===================================================================== *)

Lemma replace_one_fmap old new (s : pystr) :
  replace old [new] s = (fun c => if (c =? old)%N then new else c) <$> s.
Proof.
  unfold replace. induction s as [|c r IH]; [done|]. simpl. rewrite IH.
  by destruct (c =? old)%N.
Qed.

(** [clean_text] writes a space for every CR and LF, then trims. *)
Lemma clean_text_unfold x :
  clean_text x
  = CStr (strip ((fun c => if bool_decide ((c = CR) ∨ (c = LF)) then SPACE else c)
                 <$> py_str x)).
Proof.
  unfold clean_text. rewrite !replace_one_fmap, <- list_fmap_compose.
  do 2 f_equal. apply list_fmap_ext. intros _ c _. simpl.
  destruct (N.eqb_spec c CR) as [->|H1]; [done|].
  destruct (N.eqb_spec c LF) as [->|H2]; [done|].
  rewrite bool_decide_eq_false_2; [done|]. by intros [?|?].
Qed.

Lemma clean_text_clean x :
  ∃ t, clean_text x = CStr t ∧ (CR ∉ t) ∧ (LF ∉ t) ∧ strip t = t.
Proof.
  eexists. split; [reflexivity|]. repeat split.
  - intros H%elem_of_strip. rewrite !elem_of_replace_one in H.
    destruct H as [[[[_ ?]|[? _]] _]|[? _]]; done.
  - intros H%elem_of_strip. rewrite !elem_of_replace_one in H.
    destruct H as [[_ ?]|[? _]]; done.
  - apply strip_idemp.
Qed.

Lemma normalized_columns df : columns (normalized df) = columns df.
Proof.
  unfold normalized.
  set (df1 := if has_column AMOUNT df then _ else df).
  assert (H1 : columns df1 = columns df) by (subst df1; by destruct (has_column _ _)).
  assert (Hgen : ∀ cs d, columns (fold_left (fun d col => map_column col clean_text d) cs d)
                         = columns d).
  { induction cs as [|c cs IH]; intros d; [done|]. simpl. by rewrite IH. }
  by rewrite Hgen.
Qed.

(** The frame that is written, cell by cell. *)
Lemma normalized_values df :
  NoDup (columns df) -> frame_ok df ->
  values (normalized df)
  = (fun r => imap (fun j x =>
       clean_text (if bool_decide (columns df !! j = Some AMOUNT)
                   then CStr (money_to_csv x) else x)) r) <$> values df.
Proof.
  intros Hnd Hok. unfold normalized.
  set (df1 := if has_column AMOUNT df then _ else df).
  assert (H1 : columns df1 = columns df) by (subst df1; by destruct (has_column _ _)).
  assert (Hv1 : values df1
    = (fun r => imap (fun j x => if bool_decide (columns df !! j = Some AMOUNT)
                                 then CStr (money_to_csv x) else x) r) <$> values df).
  { subst df1. destruct (has_column AMOUNT df) eqn:E.
    - apply map_column_values.
    - apply has_column_false in E.
      rewrite <- (list_fmap_id (values df)) at 1.
      apply list_fmap_ext. intros _ r _. unfold id.
      apply list_eq. intros j. rewrite list_lookup_imap.
      destruct (r !! j); [|done]. simpl.
      rewrite bool_decide_eq_false_2; [done|].
      intros H. apply E. by eapply list_elem_of_lookup_2. }
  destruct (map_columns_values clean_text (columns df1) df1) as [_ Hv].
  { by rewrite H1. }
  rewrite Hv, Hv1, <- list_fmap_compose.
  unfold frame_ok in Hok. rewrite Forall_forall in Hok.
  apply list_eq. intros i. rewrite !list_lookup_fmap.
  destruct (values df !! i) as [r|] eqn:Er; [|done]. simpl. f_equal.
  assert (Hlen : length r = length (columns df)).
  { apply Hok. by eapply list_elem_of_lookup_2. }
  apply list_eq. intros j. rewrite !list_lookup_imap.
  destruct (r !! j) as [x|] eqn:Ex; [|done]. simpl. f_equal.
  rewrite H1.
  destruct (columns df !! j) as [c|] eqn:Ec.
  - rewrite (bool_decide_eq_true_2 (c ∈ columns df)); [done|].
    by eapply list_elem_of_lookup_2.
  - apply lookup_ge_None in Ec. apply lookup_lt_Some in Ex. lia.
Qed.

(** C7: in the frame that [export_csv] writes, every cell of every record
    is the text of the original cell (of its normalised amount, in the
    amount column) with a space for each CR and each LF, trimmed; so no
    cell holds a CR or an LF, and none starts or ends with white space. *)
Theorem export_cells_clean (df : DataFrame) :
  NoDup (columns df) -> frame_ok df ->
  columns (normalized df) = columns df
  ∧ (∀ i j r x, values df !! i = Some r -> r !! j = Some x ->
       ∃ r', values (normalized df) !! i = Some r'
             ∧ r' !! j = Some (clean_text
                 (if bool_decide (columns df !! j = Some AMOUNT)
                  then CStr (money_to_csv x) else x)))
  ∧ (∀ x, clean_text x
          = CStr (strip ((fun c => if bool_decide ((c = CR) ∨ (c = LF))
                                   then SPACE else c) <$> py_str x)))
  ∧ (∀ r' y, r' ∈ values (normalized df) -> y ∈ r' ->
       ∃ t, y = CStr t ∧ (CR ∉ t) ∧ (LF ∉ t) ∧ strip t = t).
Proof.
  intros Hnd Hok. split; [apply normalized_columns|].
  rewrite normalized_values by done. split; [|split].
  - intros i j r x Hr Hx. eexists. split.
    + rewrite list_lookup_fmap, Hr. reflexivity.
    + rewrite list_lookup_imap, Hx. reflexivity.
  - apply clean_text_unfold.
  - intros r' y Hr' Hy.
    apply list_elem_of_fmap in Hr' as (r & -> & _).
    apply list_elem_of_lookup in Hy as (j & Hj).
    rewrite list_lookup_imap in Hj.
    destruct (r !! j) as [x|]; [|done]. injection Hj as <-.
    apply clean_text_clean.
Qed.

(* ===================================================================== *)
(** * Import: coercion to the schema *)
(* ===================================================================== *)

Section ImportFacts.

Local Open Scope nat_scope.

Lemma NoDup_COLUMNS : NoDup COLUMNS.
Proof. apply (bool_decide_unpack _). by vm_compute. Qed.

Lemma filter_ext_in {A} (P Q : A -> Prop) `{!∀ x, Decision (P x)}
    `{!∀ x, Decision (Q x)} (l : list A) :
  (∀ x, x ∈ l -> P x ↔ Q x) -> filter P l = filter Q l.
Proof.
  induction l as [|x l IH]; intros Hext; [done|].
  rewrite !filter_cons, IH by (intros y Hy; apply Hext; by right).
  pose proof (Hext x ltac:(left)) as Hx.
  destruct (decide (P x)), (decide (Q x)); tauto.
Qed.

Lemma add_missing_gen (cs : list pystr) (df : DataFrame) :
  NoDup cs ->
  let d := fold_left (fun d col => if has_column col d then d
                                   else setitem_scalar col (CStr []) d) cs df in
  columns d = columns df ++ missing_of cs df
  ∧ values d = (fun r => r ++ replicate (length (missing_of cs df)) (CStr []))
               <$> values df.
Proof.
  intros Hnd. revert df.
  induction Hnd as [|c cs Hnotin Hnd IH]; intros df; simpl.
  - unfold missing_of. simpl. rewrite app_nil_r. split; [done|].
    rewrite <- (list_fmap_id (values df)) at 1.
    apply list_fmap_ext. intros _ r _. by rewrite app_nil_r.
  - unfold missing_of. rewrite filter_cons.
    destruct (has_column c df) eqn:E.
    + apply has_column_true in E.
      destruct (decide (c ∉ columns df)); [done|]. apply IH.
    + pose proof E as E'. apply has_column_false in E'.
      destruct (decide (c ∉ columns df)); [|done].
      destruct (IH (setitem_scalar c (CStr []) df)) as [Hc Hv].
      unfold setitem_scalar in Hc, Hv. rewrite E in Hc, Hv. simpl in Hc, Hv.
      unfold setitem_scalar. rewrite E.
      assert (Hf : missing_of cs {| columns := columns df ++ [c];
                     values := (fun r => r ++ [CStr []]) <$> values df |}
                   = filter (fun c => c ∉ columns df) cs).
      { unfold missing_of. simpl. apply filter_ext_in.
        intros x Hx. rewrite not_elem_of_app.
        split; [tauto|]. intros H. split; [done|].
        intros ->%list_elem_of_singleton. done. }
      rewrite Hf in Hc, Hv. split.
      * rewrite Hc. by rewrite <- app_assoc.
      * rewrite Hv, <- list_fmap_compose.
        apply list_fmap_ext. intros _ r _. simpl. by rewrite <- app_assoc.
Qed.

Lemma flat_map_singletons {A B} (f : A -> list B) (g : A -> B) (l : list A) :
  (∀ x, x ∈ l -> f x = [g x]) -> flat_map f l = g <$> l.
Proof.
  induction l as [|x l IH]; intros H; [done|]. simpl.
  rewrite (H x) by left. rewrite IH; [done|]. intros y Hy. apply H. by right.
Qed.

(** A frame with distinct labels that has every label of [cs]: [df[cs]]
    picks one column per label. *)
Lemma getitem_list_unique (cs : list pystr) (df : DataFrame) :
  NoDup (columns df) -> (∀ c, c ∈ cs -> c ∈ columns df) ->
  ∃ ps, getitem_list cs df
        = Some {| columns := cs;
                  values := (fun r => cell_at r <$> ps) <$> values df |}
        ∧ length ps = length cs
        ∧ (∀ k c, cs !! k = Some c ->
             ∃ j, ps !! k = Some j ∧ columns df !! j = Some c).
Proof.
  intros Hnd Hall.
  set (idx := fun c => hd 0 (positions c df)).
  assert (Hidx : ∀ c, c ∈ cs ->
            positions c df = [idx c] ∧ columns df !! idx c = Some c).
  { intros c Hc. destruct (list_elem_of_lookup_1 _ _ (Hall c Hc)) as [k Hk].
    unfold idx. by rewrite (positions_unique c df k). }
  exists (idx <$> cs). split; [|split].
  - unfold getitem_list.
    rewrite (proj2 (forallb_forall _ _)); cycle 1.
    { intros c Hc%list_elem_of_In. by apply has_column_true, Hall. }
    rewrite (flat_map_singletons _ idx) by (intros; by apply Hidx).
    f_equal. f_equal.
    rewrite <- list_fmap_compose.
    rewrite <- (list_fmap_id cs) at 2. apply list_fmap_ext.
    intros _ c Hc%list_elem_of_lookup_2.
    destruct (Hidx c Hc) as [_ E]. simpl. unfold id.
    by destruct (columns df !! idx c) as [c'|]; simplify_eq.
  - by rewrite length_fmap.
  - intros k c Hk. exists (idx c). split.
    + by rewrite list_lookup_fmap, Hk.
    + apply Hidx. by eapply list_elem_of_lookup_2.
Qed.

End ImportFacts.

Section ImportTheorem.

Local Open Scope nat_scope.

Lemma add_missing_spec (df : DataFrame) :
  columns (add_missing df) = columns df ++ missing_of COLUMNS df
  ∧ values (add_missing df)
    = (fun r => r ++ replicate (length (missing_of COLUMNS df)) (CStr []))
      <$> values df.
Proof. apply (add_missing_gen COLUMNS df NoDup_COLUMNS). Qed.

(** C5: whatever frame the reader returned, the store that [load_data]
    installs has exactly the 14 schema columns, in schema order.  A schema
    column the source lacks is the empty string in every row; a schema
    column the source has carries the source's cells (an absent value as the
    empty string); nothing else of the source is kept. *)
Theorem load_data_schema (df : DataFrame) :
  NoDup (columns df) -> frame_ok df ->
  ∃ df',
    coerce df = Some df'
    ∧ columns df' = COLUMNS
    ∧ length (columns df') = 14
    ∧ frame_ok df'
    ∧ length (values df') = length (values df)
    ∧ (∀ i r k c, values df !! i = Some r -> COLUMNS !! k = Some c ->
         ∃ r', values df' !! i = Some r'
               ∧ (c ∉ columns df -> r' !! k = Some (CStr []))
               ∧ (∀ j, columns df !! j = Some c ->
                    r' !! k = Some (match cell_at r j with
                                    | CNaN => CStr []
                                    | x => x
                                    end)))
    ∧ (∀ rt picked tab, picked ≠ [] ->
         _df (model (load_data rt picked (inr df) tab)) = df'
         ∧ dialogs (load_data rt picked (inr df) tab) = dialogs tab).
Proof.
  intros Hnd Hok.
  destruct (add_missing_spec df) as [Hc Hv].
  set (miss := missing_of COLUMNS df) in *.
  assert (Hmiss : ∀ c, c ∈ miss ↔ (c ∉ columns df) ∧ c ∈ COLUMNS).
  { intros c. unfold miss, missing_of. by rewrite list_elem_of_filter. }
  assert (Hnd2 : NoDup (columns (add_missing df))).
  { rewrite Hc. apply NoDup_app. split; [done|]. split.
    - intros c Hin Hm. by apply Hmiss in Hm as [? _].
    - apply NoDup_filter, NoDup_COLUMNS. }
  assert (Hall : ∀ c, c ∈ COLUMNS -> c ∈ columns (add_missing df)).
  { intros c Hin. rewrite Hc, elem_of_app.
    destruct (decide (c ∈ columns df)); [by left|]. right. by apply Hmiss. }
  destruct (getitem_list_unique COLUMNS (add_missing df) Hnd2 Hall)
    as (ps & Hget & Hlen & Hps).
  set (df' := fillna (CStr [])
                {| columns := COLUMNS;
                   values := (fun r => cell_at r <$> ps) <$> values (add_missing df) |}).
  assert (Hco : coerce df = Some df').
  { unfold coerce. by rewrite Hget. }
  exists df'. split; [exact Hco|].
  split; [reflexivity|]. split; [reflexivity|].
  split; [|split; [|split]]; cycle 3.
  { intros rt picked tab Hp. unfold load_data.
    destruct picked as [|a picked]; [done|]. rewrite Hco.
    unfold update_total, with_model, with_label. cbn [model _df].
    by destruct (column_tolist AMOUNT df'). }
  all: unfold df', fillna; cbn [columns values]; clear df' Hco.
  - unfold frame_ok. cbn [columns values]. apply Forall_forall. intros r' Hr'.
    apply list_elem_of_fmap in Hr' as (r1 & -> & Hr1).
    apply list_elem_of_fmap in Hr1 as (r & -> & _).
    by rewrite !length_fmap.
  - by rewrite !length_fmap, Hv, length_fmap.
  - intros i r k c Hr Hk.
    destruct (Hps k c Hk) as (j' & Hj' & Hcol).
    assert (Hrlen : length r = length (columns df)).
    { unfold frame_ok in Hok. rewrite Forall_forall in Hok. apply Hok.
      by eapply list_elem_of_lookup_2. }
    eexists. split.
    { rewrite !list_lookup_fmap, Hv, list_lookup_fmap, Hr. reflexivity. }
    rewrite !list_lookup_fmap, Hj'. simpl. rewrite Hc in Hcol. split.
    + intros Hnot.
      assert (length (columns df) <= j') as Hge.
      { destruct (decide (j' < length (columns df))) as [Hlt|]; [|lia].
        rewrite lookup_app_l in Hcol by done.
        exfalso. apply Hnot. by eapply list_elem_of_lookup_2. }
      assert (j' < length (columns df ++ miss)) as Hlt.
      { apply lookup_lt_is_Some. by eexists. }
      rewrite length_app in Hlt.
      unfold cell_at. rewrite lookup_app_r by lia.
      rewrite lookup_replicate_2 by lia. done.
    + intros j Hj.
      assert (j' = j) as ->.
      { eapply NoDup_lookup; [exact Hnd2| |].
        - rewrite Hc. exact Hcol.
        - rewrite Hc. rewrite lookup_app_l; [done|]. by eapply lookup_lt_Some. }
      unfold cell_at. rewrite lookup_app_l.
      * by destruct (default CNaN (r !! j)).
      * rewrite Hrlen. by eapply lookup_lt_Some.
Qed.

End ImportTheorem.

(* ===================================================================== *)
(** * The IBAN check *)
(* ===================================================================== *)

Section Iban.

Local Open Scope N_scope.

(** Case analysis on the tests of [N] found in the goal or the context. *)
Ltac n_cases :=
  repeat match goal with
  | |- context [(?a =? ?b)] => destruct (N.eqb_spec a b)
  | |- context [(?a <=? ?b)] => destruct (N.leb_spec a b)
  | H : context [(?a =? ?b)] |- _ => destruct (N.eqb_spec a b)
  | H : context [(?a <=? ?b)] |- _ => destruct (N.leb_spec a b)
  end; cbn [andb orb] in *.

Lemma elem_of_code_range lo hi x : x ∈ code_range lo hi ↔ lo <= x <= hi.
Proof.
  unfold code_range. rewrite list_elem_of_In, in_map_iff.
  setoid_rewrite <- list_elem_of_In. setoid_rewrite elem_of_seq. split.
  - intros (k & <- & Hk). lia.
  - intros H. exists (N.to_nat (x - lo)). split; lia.
Qed.

Lemma elem_of_charmap_IN ranges x :
  x ∈ charmap (IN ranges)
  ↔ ∃ lo hi i, (lo, hi) ∈ ranges ∧ lo <= i <= hi
               ∧ (x = sre_lower i ∨ x ∈ ignorecase_fixes (sre_lower i)).
Proof.
  unfold charmap. rewrite list_elem_of_In, in_flat_map. split.
  - intros ([lo hi] & Hr & Hx). apply in_flat_map in Hx as (i & Hi & Hx).
    exists lo, hi, i. rewrite <- !list_elem_of_In in *.
    apply elem_of_code_range in Hi. apply elem_of_cons in Hx. done.
  - intros (lo & hi & i & Hr & Hi & Hx). exists (lo, hi).
    rewrite <- list_elem_of_In. split; [done|]. apply in_flat_map. exists i.
    rewrite <- !list_elem_of_In. rewrite elem_of_code_range, elem_of_cons. done.
Qed.

Lemma sre_lower_cases c :
  (65 <= c <= 90 ∧ sre_lower c = c + 32)
  ∨ (c = 304 ∧ sre_lower c = 105)
  ∨ (c = 8490 ∧ sre_lower c = 107)
  ∨ (¬ (65 <= c <= 90) ∧ c ≠ 304 ∧ c ≠ 8490 ∧ sre_lower c = c).
Proof. unfold sre_lower. n_cases; lia. Qed.

Lemma elem_of_ignorecase_fixes lo x :
  x ∈ ignorecase_fixes lo ↔ (lo = 105 ∧ x = 305) ∨ (lo = 115 ∧ x = 383).
Proof.
  unfold ignorecase_fixes.
  n_cases; rewrite ?list_elem_of_singleton, ?elem_of_nil; lia.
Qed.

Lemma atom_match_letter (p c : N) :
  65 <= p <= 90 -> p ≠ 73 -> p ≠ 83 ->
  atom_match (LITERAL p) c = true ↔ c = p ∨ c = p + 32 ∨ (p = 75 ∧ c = 8490).
Proof.
  intros Hp H1 H2. unfold atom_match. rewrite bool_decide_eq_true.
  unfold charmap. rewrite elem_of_cons, elem_of_ignorecase_fixes.
  destruct (sre_lower_cases p) as [[_ ->]|[[? _]|[[? _]|[? _]]]]; try lia.
  destruct (sre_lower_cases c) as [[? ->]|[[? ->]|[[? ->]|(? & ? & ? & ->)]]]; lia.
Qed.

Lemma atom_match_class (c : N) :
  atom_match (IN [(65, 90); (48, 57)]) c = true ↔ iban_char c.
Proof.
  unfold atom_match. rewrite bool_decide_eq_true, elem_of_charmap_IN.
  unfold iban_char, ascii_alnum. split.
  - intros (lo & hi & i & Hr & Hi & Hx).
    rewrite elem_of_ignorecase_fixes in Hx.
    assert ((lo = 65 ∧ hi = 90) ∨ (lo = 48 ∧ hi = 57)) as Hlh.
    { apply elem_of_cons in Hr as [[= -> ->]|Hr]; [by left|].
      apply list_elem_of_singleton in Hr as [= -> ->]. by right. }
    destruct (sre_lower_cases i) as [[? Ei]|[[? Ei]|[[? Ei]|(? & ? & ? & Ei)]]];
      rewrite Ei in Hx;
      destruct (sre_lower_cases c) as [[? Ec]|[[? Ec]|[[? Ec]|(? & ? & ? & Ec)]]];
      rewrite Ec in Hx; lia.
  - intros H.
    assert (48 <= c <= 57 ∨ (65 <= c <= 90 ∨ 97 <= c <= 122 ∨ c = 304 ∨ c = 8490)
            ∨ c = 305 ∨ c = 383) as [Hd|[Hl|[->| ->]]] by lia.
    + exists 48, 57, c. split; [right; left|]. split; [lia|]. left.
      destruct (sre_lower_cases c) as [[? Ec]|[[? Ec]|[[? Ec]|(? & ? & ? & Ec)]]]; lia.
    + exists 65, 90, (sre_lower c - 32). split; [left|].
      destruct (sre_lower_cases c) as [[? Ec]|[[? Ec]|[[? Ec]|(? & ? & ? & Ec)]]];
        rewrite Ec; (split; [lia|]); left;
        match goal with
        | |- _ = sre_lower ?i =>
          destruct (sre_lower_cases i) as [[? Ei]|[[? Ei]|[[? Ei]|(? & ? & ? & Ei)]]]
        end; lia.
    + exists 65, 90, 73. split; [left|]. split; [lia|]. right.
      vm_compute. left.
    + exists 65, 90, 83. split; [left|]. split; [lia|]. right.
      vm_compute. left.
Qed.

Lemma max_repeat_spec a k n st s :
  max_repeat a k n st s = true
  ↔ ∃ body rest,
      s = body ++ rest ∧ (n <= length body)%nat
      ∧ Forall (fun c => atom_match a c = true) body
      ∧ k (st && bool_decide (body = [])) rest = true.
Proof.
  revert n st. induction s as [|c s IH]; intros n st; simpl.
  - rewrite andb_true_iff, bool_decide_eq_true. split.
    + intros [-> Hk]. exists [], []. rewrite andb_true_r. by repeat split.
    + intros (body & rest & E & Hn & _ & Hk).
      symmetry in E. apply app_eq_nil in E as [-> ->]. simpl in Hn.
      rewrite andb_true_r in Hk. split; [lia|done].
  - rewrite orb_true_iff, !andb_true_iff, bool_decide_eq_true, IH. split.
    + intros [[Hc (body & rest & -> & Hn & Hb & Hk)]|[-> Hk]].
      * exists (c :: body), rest. rewrite andb_false_r. simpl in *.
        repeat split; [lia|by constructor|done].
      * exists [], (c :: s). rewrite andb_true_r. by repeat split.
    + intros (body & rest & E & Hn & Hb & Hk). destruct body as [|c' body].
      * right. simpl in *. rewrite andb_true_r in Hk. subst rest.
        split; [lia|done].
      * left. simpl in E. injection E as -> ->. inversion Hb; subst.
        split; [done|]. exists body, rest. rewrite andb_false_r in Hk.
        simpl in *. repeat split; [lia|done|done].
Qed.

(** The pattern, read off the matcher. *)
Lemma iban_match_shape v : iban_match v = true ↔ iban_shape v.
Proof.
  unfold iban_match, iban_shape, IBAN_REGEX. cbn [sre_match andb].
  destruct v as [|r [|o s]].
  - split; [done|]. by intros (? & ? & ? & ? & ? & _).
  - rewrite andb_false_r. split; [done|]. by intros (? & ? & ? & ? & ? & _).
  - rewrite !andb_true_iff, max_repeat_spec.
    rewrite (atom_match_letter 82) by lia. rewrite (atom_match_letter 79) by lia.
    split.
    + intros (Hr & Ho & body & rest & -> & Hn & Hb & Hk).
      exists r, o, body, rest. cbn [sre_match] in Hk. rewrite andb_true_r in Hk.
      repeat split; [lia|lia|done| |].
      * eapply Forall_impl; [exact Hb|]. intros c. apply atom_match_class.
      * destruct rest as [|c [|? ?]]; [by left| |done].
        right. simpl in Hk. apply N.eqb_eq in Hk. by subst.
    + intros (r' & o' & body & tail & [= -> -> ->] & Hr & Ho & Hn & Hb & Ht).
      split; [lia|]. split; [lia|]. exists body, tail.
      repeat split; [done| |].
      * eapply Forall_impl; [exact Hb|]. intros c. apply atom_match_class.
      * cbn [sre_match]. rewrite andb_true_r. by destruct Ht as [-> | ->].
Qed.

End Iban.

(** C6, as stated, fails: the check accepts a value that is not "RO" and
    ASCII letters and digits.  Under [re.IGNORECASE] the class [[A-Z]] also
    accepts the Kelvin sign (U+212A), whose lower case is [k]. *)
Lemma iban_check_not_as_claimed :
  iban_match (lit "RO1" ++ [8490%N]) = true
  ∧ ¬ claimed_iban_shape (lit "RO1" ++ [8490%N]).
Proof.
  split; [reflexivity|].
  intros (r & o & rest & E & _ & _ & _ & Hall).
  injection E as _ _ <-.
  apply Forall_cons in Hall as [_ Hall]. apply Forall_cons in Hall as [H _].
  unfold ascii_alnum in H. lia.
Qed.

(** Nor does the check look at a final line feed: [$] matches before it. *)
Example iban_check_final_newline :
  iban_match (lit "RO12" ++ [LF]) = true
  ∧ ¬ claimed_iban_shape (lit "RO12" ++ [LF]).
Proof.
  split; [reflexivity|].
  intros (r & o & rest & E & _ & _ & _ & Hall).
  injection E as _ _ <-.
  do 2 apply Forall_cons in Hall as [_ Hall]. apply Forall_cons in Hall as [H _].
  unfold ascii_alnum, LF in H. lia.
Qed.

(** The failure does not hang on what "alphanumeric" means outside ASCII:
    a reading that counts the Kelvin sign must count e-acute (U+00E9), which
    the check rejects; a reading that does not count it is refuted by the
    Kelvin sign itself. *)
Remark iban_check_any_alphabet (alnum : N -> Prop) :
  (alnum 233%N ↔ alnum 8490%N) ->
  ¬ (∀ v, iban_match v = true ↔ shape_of alnum v).
Proof.
  intros Hsame Hall.
  assert (Hk : alnum 8490%N).
  { destruct (proj1 (Hall (lit "RO" ++ [8490; 8490]%N)) eq_refl)
      as (r & o & rest & E & _ & _ & _ & Hf).
    injection E as _ _ <-. by apply Forall_cons in Hf as [? _]. }
  assert (He : alnum 233%N) by (by apply Hsame).
  assert (iban_match (lit "RO" ++ [233; 233]%N) = true); [|done].
  apply Hall. exists 82%N, 79%N, [233; 233]%N.
  repeat split; [by left|by left|done|by repeat constructor].
Qed.

(** Nor is the check a test of the beginning of the value: what follows
    the alphanumeric characters counts. *)
Remark iban_check_not_a_prefix_test (alnum : N -> Prop) :
  alnum 49%N -> alnum 50%N ->
  ¬ (∀ v, iban_match v = true ↔ prefix_shape_of alnum v).
Proof.
  intros H1 H2 Hall.
  assert (iban_match (lit "RO12-") = true); [|done].
  apply Hall. exists 82%N, 79%N, [49; 50]%N, (lit "-").
  repeat split; [by left|by left|done|by repeat constructor].
Qed.

(* ===================================================================== *)
(** * Export *)
(* ===================================================================== *)

Section ExportFacts.

Lemma tmp_ne_path (path : pystr) : path ++ lit ".tmp" ≠ path.
Proof.
  intros H. apply (f_equal length) in H. rewrite length_app in H.
  simpl in H. lia.
Qed.

(** When the write fails, only the temporary file can have changed. *)
Lemma save_write_fails (io : io_script) (path : pystr) (data : bytes)
    (fs : files) left_behind msg :
  write_fails io = Some (left_behind, msg) ->
  ∃ fs', save io path data fs = (Some msg, fs')
         ∧ ∀ p, p ≠ path ++ lit ".tmp" -> fs' !! p = fs !! p.
Proof.
  intros H. unfold save. rewrite H. eexists. split; [reflexivity|].
  intros p Hp. destruct left_behind; [|done]. by rewrite lookup_insert_ne.
Qed.

(** Without a failure, the destination holds the data written. *)
Lemma save_no_faults (path : pystr) (data : bytes) (fs : files) :
  ∃ fs', save no_faults path data fs = (None, fs')
         ∧ fs' !! path = Some data
         ∧ fs' !! (path ++ lit ".tmp") = None
         ∧ ∀ p, p ≠ path -> p ≠ path ++ lit ".tmp" -> fs' !! p = fs !! p.
Proof.
  pose proof (tmp_ne_path path) as Hne.
  unfold save. cbn [write_fails remove_fails replace_fails no_faults].
  set (tmp := path ++ lit ".tmp") in *.
  assert (Htmp : delete path (<[tmp := data]> fs) !! tmp = Some data).
  { rewrite lookup_delete_ne by done. apply lookup_insert_eq. }
  assert (Hres : ∃ fs', (match delete path (<[tmp := data]> fs) !! tmp with
                         | Some d => (None, <[path := d]> (delete tmp (delete path (<[tmp := data]> fs))))
                         | None => (Some (lit "FileNotFoundError"), delete path (<[tmp := data]> fs))
                         end) = (None, fs')
            ∧ fs' !! path = Some data ∧ fs' !! tmp = None
            ∧ ∀ p, p ≠ path -> p ≠ tmp -> fs' !! p = fs !! p).
  { rewrite Htmp. eexists. split; [reflexivity|]. split; [|split].
    - apply lookup_insert_eq.
    - rewrite lookup_insert_ne by done. apply lookup_delete_eq.
    - intros p H1 H2. rewrite lookup_insert_ne by done.
      rewrite !lookup_delete_ne by done. by rewrite lookup_insert_ne. }
  by destruct (<[tmp := data]> fs !! path).
Qed.

Local Open Scope nat_scope.

Lemma column_tolist_schema c df k :
  columns df = COLUMNS -> COLUMNS !! k = Some c ->
  column_tolist c df = Some ((fun r => cell_at r k) <$> values df).
Proof.
  intros Hc Hk. unfold column_tolist.
  rewrite (positions_unique c df k); [done| |]; rewrite Hc;
    [apply NoDup_COLUMNS|done].
Qed.

Lemma iban_warnings_schema df :
  columns df = COLUMNS ->
  iban_warnings df
  = inr (bad_rows PAYER_IBAN ((fun r => cell_at r 3) <$> values df)
         ++ bad_rows PAYEE_IBAN ((fun r => cell_at r 8) <$> values df)).
Proof.
  intros Hc. unfold iban_warnings.
  rewrite (column_tolist_schema PAYER_IBAN df 3) by done.
  by rewrite (column_tolist_schema PAYEE_IBAN df 8) by done.
Qed.

(** The warnings of a column: its non-empty values the check rejects, with
    the row counted from 1. *)
Lemma elem_of_bad_rows col vals (n : Z) col' :
  (n, col') ∈ bad_rows col vals
  ↔ col' = col
    ∧ ∃ i val, n = (Z.of_nat i + 1)%Z ∧ vals !! i = Some val
               ∧ strip (py_str val) ≠ []
               ∧ iban_match (strip (py_str val)) = false.
Proof.
  unfold bad_rows. rewrite list_elem_of_omap. split.
  - intros ([i val] & Hin & Hf).
    apply list_elem_of_lookup in Hin as (j & Hj).
    rewrite list_lookup_imap in Hj.
    destruct (vals !! j) as [x|] eqn:Ex; [|done]. injection Hj as <- <-.
    destruct (strip (py_str x)) as [|a t] eqn:Es; [done|].
    destruct (iban_match (a :: t)) eqn:Em; [done|]. injection Hf as <- <-.
    split; [done|]. exists j, x. by rewrite Es.
  - intros (-> & i & val & -> & Hv & Hne & Hm). exists (i, val). split.
    + apply list_elem_of_lookup. exists i. by rewrite list_lookup_imap, Hv.
    + destruct (strip (py_str val)) as [|a t]; [done|]. by rewrite Hm.
Qed.

End ExportFacts.

(** C4: when the write of the CSV data raises, [export_csv] shows the
    error and stops: the destination is as it was before (its previous
    contents if it existed, absent if it did not), the record store is
    untouched, and no file other than the temporary sibling has changed. *)
Theorem export_write_failure (to_csv : DataFrame -> csv_format -> bytes)
    (io : io_script) (tab : CompanyTab) (fs : files)
    (left_behind : option bytes) (msg : pystr) :
  write_fails io = Some (left_behind, msg) ->
  strip (path_edit tab) ≠ [] ->
  columns (_df (model tab)) = COLUMNS ->
  ∃ tab' fs',
    export_csv to_csv io tab fs = (ExportError msg, tab', fs')
    ∧ last (dialogs tab') = Some (Critical (lit "Export error") msg)
    ∧ model tab' = model tab
    ∧ fs' !! strip (path_edit tab) = fs !! strip (path_edit tab)
    ∧ (∀ p, p ≠ strip (path_edit tab) ++ lit ".tmp" -> fs' !! p = fs !! p).
Proof.
  intros Hw Hpath Hcols. unfold export_csv.
  destruct (strip (path_edit tab)) as [|a path] eqn:Ep; [done|].
  rewrite iban_warnings_schema by (by rewrite normalized_columns).
  set (bad := _ ++ _).
  set (tab1 := match bad with [] => tab | _ => _ end).
  assert (Hm : model tab1 = model tab) by (subst tab1; by destruct bad).
  match goal with
  | |- context [save io ?p ?d fs] =>
    destruct (save_write_fails io p d fs left_behind msg Hw) as (fs' & -> & Hfs)
  end.
  exists (show (Critical (lit "Export error") msg) tab1), fs'.
  split; [reflexivity|]. split; [apply last_snoc|]. split; [exact Hm|].
  split; [|exact Hfs]. apply Hfs. intros H. symmetry in H.
  by apply tmp_ne_path in H.
Qed.

(** C6, amended: the check accepts a value exactly when it is R and O in
    either case, then two or more characters that are ASCII letters, ASCII
    digits or one of U+0130, U+0131, U+017F, U+212A, and then the end or one
    final line feed.  Every value of the two account columns that is not
    empty once trimmed and that the check rejects is collected with its row
    (counted from 1) and its column; and with or without warnings, an
    export that meets no I/O failure writes the file and reports success. *)
Theorem iban_check_and_warnings :
  (∀ v, iban_match v = true ↔ iban_shape v)
  ∧ iban_match (lit "RO49AAAA1234567890123456") = true
  ∧ iban_match (lit "FR1420041010050500013M02606") = false
  ∧ (∀ df, columns df = COLUMNS ->
       ∃ bad, iban_warnings (normalized df) = inr bad
         ∧ ∀ n col, (n, col) ∈ bad
             ↔ (col = PAYER_IBAN ∨ col = PAYEE_IBAN)
               ∧ ∃ i vals val,
                   n = Z.of_nat i + 1
                   ∧ column_tolist col (normalized df) = Some vals
                   ∧ vals !! i = Some val
                   ∧ strip (py_str val) ≠ []
                   ∧ iban_match (strip (py_str val)) = false)
  ∧ (∀ (to_csv : DataFrame -> csv_format -> bytes) (tab : CompanyTab) (fs : files),
       strip (path_edit tab) ≠ [] ->
       columns (_df (model tab)) = COLUMNS ->
       ∃ bad tab' fs',
         iban_warnings (normalized (_df (model tab))) = inr bad
         ∧ export_csv to_csv no_faults tab fs = (Exported, tab', fs')
         ∧ fs' !! strip (path_edit tab)
           = Some (to_csv (normalized (_df (model tab)))
                     {| header := negb (no_header_chk tab);
                        encoding_of := if bom_chk tab then UTF_8_SIG else UTF_8;
                        lineterminator := if crlf_chk tab then [CR; LF] else [LF] |})
         ∧ model tab' = model tab
         ∧ (bad ≠ [] ->
            Warning (lit "Validation")
              (lit "Some IBANs look invalid (should start with RO). Sample rows: "
               ++ repr_bad (take 5 bad)) ∈ dialogs tab')).
Proof.
  split; [apply iban_match_shape|]. split; [reflexivity|]. split; [reflexivity|].
  split.
  - intros df Hc.
    assert (Hc' : columns (normalized df) = COLUMNS) by (by rewrite normalized_columns).
    rewrite (iban_warnings_schema _ Hc'). eexists. split; [reflexivity|].
    intros n col. rewrite elem_of_app, !elem_of_bad_rows. split.
    + intros [[-> (i & val & ? & ? & ? & ?)]|[-> (i & val & ? & ? & ? & ?)]].
      * split; [by left|]. eexists i, _, val.
        by rewrite (column_tolist_schema PAYER_IBAN _ 3 Hc').
      * split; [by right|]. eexists i, _, val.
        by rewrite (column_tolist_schema PAYEE_IBAN _ 8 Hc').
    + intros [[-> | ->] (i & vals & val & ? & Hv & ? & ? & ?)].
      * left. split; [done|]. exists i, val.
        rewrite (column_tolist_schema PAYER_IBAN _ 3 Hc') in Hv by done.
        injection Hv as <-. done.
      * right. split; [done|]. exists i, val.
        rewrite (column_tolist_schema PAYEE_IBAN _ 8 Hc') in Hv by done.
        injection Hv as <-. done.
  - intros to_csv tab fs Hpath Hcols. unfold export_csv.
    destruct (strip (path_edit tab)) as [|a path] eqn:Ep; [done|].
    rewrite iban_warnings_schema by (by rewrite normalized_columns).
    set (bad := _ ++ _).
    set (tab1 := match bad with [] => tab | _ => _ end).
    assert (Hm : model tab1 = model tab) by (subst tab1; by destruct bad).
    assert (Hf : no_header_chk tab1 = no_header_chk tab
                 ∧ bom_chk tab1 = bom_chk tab ∧ crlf_chk tab1 = crlf_chk tab)
      by (subst tab1; by destruct bad).
    destruct Hf as (-> & -> & ->).
    match goal with
    | |- context [save no_faults ?p ?d fs] =>
      destruct (save_no_faults p d fs) as (fs' & -> & Hfs & _)
    end.
    exists bad, (show (Information (lit "Exported")
                         (lit "CSV saved:" ++ [LF] ++ a :: path)) tab1), fs'.
    split; [reflexivity|]. split; [reflexivity|]. split; [exact Hfs|].
    split; [exact Hm|]. intros Hbad.
    cbn [dialogs show]. apply elem_of_app. left.
    subst tab1. destruct bad as [|b bad']; [done|].
    cbn [dialogs show]. apply elem_of_app. right. by left.
Qed.

(* ===================================================================== *)
(** * Digit strings *)
(* ===================================================================== *)

Section Digits.

Local Open Scope nat_scope.

Implicit Types (ds : pystr).

Lemma ascii_digit_range c : is_ascii_digit c = true ↔ (48 <= c <= 57)%N.
Proof. unfold is_ascii_digit. rewrite andb_true_iff, !N.leb_le. done. Qed.

Lemma to_ascii_digits rt ds : all_ascii_digits ds -> to_ascii rt ds = ds.
Proof.
  induction 1 as [|c ds Hc _ IH]; [done|]. simpl.
  apply ascii_digit_range in Hc.
  destruct (N.ltb_spec c 127); [|lia]. by rewrite IH.
Qed.

Lemma c_lstrip_digit c ds :
  is_ascii_digit c = true -> c_lstrip (c :: ds) = c :: ds.
Proof.
  intros Hc%ascii_digit_range. simpl.
  assert (c_isspace c = false) as ->; [|done].
  unfold c_isspace.
  destruct (N.leb_spec 9 c), (N.leb_spec c 13), (N.eqb_spec c 32); simpl; lia.
Qed.

Lemma c_strip_digits ds : all_ascii_digits ds -> c_strip ds = ds.
Proof.
  intros H. unfold c_strip. destruct ds as [|c ds]; [done|].
  rewrite c_lstrip_digit by (by inversion H).
  destruct (rev (c :: ds)) as [|c' ds'] eqn:E.
  - by rewrite <- (rev_involutive (c :: ds)), E.
  - rewrite c_lstrip_digit.
    + by rewrite <- E, rev_involutive.
    + apply Forall_rev in H. rewrite E in H. by inversion H.
Qed.

Lemma split_sign_digit c ds :
  is_ascii_digit c = true -> split_sign (c :: ds) = (false, c :: ds).
Proof.
  intros Hc%ascii_digit_range.
  assert (c = 48 ∨ c = 49 ∨ c = 50 ∨ c = 51 ∨ c = 52 ∨ c = 53 ∨ c = 54
          ∨ c = 55 ∨ c = 56 ∨ c = 57)%N as H by lia.
  by destruct H as [->|[->|[->|[->|[->|[->|[->|[->|[->| ->]]]]]]]]].
Qed.

Lemma int_body_ok_digits ds : all_ascii_digits ds -> int_body_ok false ds = true.
Proof.
  induction 1 as [|c ds Hc _ IH]; [done|]. simpl.
  pose proof Hc as Hr%ascii_digit_range.
  destruct (N.eqb_spec c 95); [lia|]. by rewrite Hc, IH.
Qed.

Lemma filter_underscore_digits ds :
  all_ascii_digits ds -> filter (fun c => c ≠ 95%N) ds = ds.
Proof.
  intros H. induction ds as [|c ds IH]; [done|].
  apply Forall_cons in H as [Hc H]. unfold pystr in *.
  rewrite filter_cons, IH by done.
  apply ascii_digit_range in Hc. destruct (decide (c ≠ 95%N)); [done|lia].
Qed.

(** [int] reads a string of ASCII digits as the number it spells (strings
    of more than 640 digits are subject to the interpreter's limit). *)
Lemma py_int_digits rt ds :
  ds ≠ [] -> all_ascii_digits ds -> length ds <= 640 ->
  py_int rt ds = Some (digits_value ds).
Proof.
  intros Hne Hd Hlen. unfold py_int.
  rewrite to_ascii_digits, c_strip_digits by done.
  destruct ds as [|c ds]; [done|].
  rewrite split_sign_digit by (by inversion Hd).
  assert (is_ascii_digit c = true) as -> by (by inversion Hd).
  rewrite int_body_ok_digits by done. cbn [andb].
  rewrite filter_underscore_digits by done.
  destruct (Nat.ltb_spec 640 (length (c :: ds))); [lia|done].
Qed.

Lemma isdigit_digits rt ds : ds ≠ [] -> all_ascii_digits ds -> isdigit rt ds = true.
Proof.
  intros Hne Hd. unfold isdigit. destruct ds as [|c ds]; [done|].
  apply forallb_forall. intros x Hx%list_elem_of_In.
  unfold all_ascii_digits in Hd. rewrite Forall_forall in Hd.
  pose proof (Hd x Hx) as Hc. unfold char_isdigit.
  apply ascii_digit_range in Hc as Hr.
  destruct (N.ltb_spec x 128); [done|lia].
Qed.

(** After a predecessor that spells a number, the number computed for the
    new row is that number itself. *)
Lemma next_po_digits rt (position : Z) df ds :
  (0 < position)%Z ->
  at_get (position - 1) PO_NO df = Some (CStr ds) ->
  ds ≠ [] -> all_ascii_digits ds -> length ds <= 640 ->
  next_po rt position df = Some (digits_value ds).
Proof.
  intros Hp Hprev Hne Hd Hlen. unfold next_po.
  destruct (Z.ltb_spec 0 position); [|lia]. rewrite Hprev.
  cbn [py_str]. by rewrite isdigit_digits, py_int_digits.
Qed.

Lemma update_total_model rt (tab : CompanyTab) :
  model (update_total rt tab) = model tab.
Proof. unfold update_total. by destruct (column_tolist _ _). Qed.

(** What [add_row] does to the records: one record is inserted at
    [position]; it is blank, except that its first field holds the number
    computed, when one was computed. *)
Lemma add_row_values rt (position : Z) (tab : CompanyTab) :
  columns (_df (model tab)) = COLUMNS ->
  (0 <= position <= rowCount (model tab))%Z ->
  let vs := values (_df (model tab)) in
  let p := Z.to_nat position in
  let empty_row := replicate 14 (CStr []) in
  let df1 := _df (insertRows position 1 (model tab)).2 in
  values df1 = take p vs ++ [empty_row] ++ drop p vs
  ∧ columns (_df (model (add_row rt (Some position) tab))) = COLUMNS
  ∧ values (_df (model (add_row rt (Some position) tab)))
    = take p vs
      ++ [match next_po rt position df1 with
          | Some n => <[0 := CInt n]> empty_row
          | None => empty_row
          end]
      ++ drop p vs.
Proof.
  intros Hc Hp vs p empty_row df1. unfold rowCount in Hp. fold vs in Hp.
  assert (Hb : slice_bound (length vs) position = p).
  { unfold slice_bound. destruct (Z.ltb_spec position 0); [lia|].
    by rewrite Z.min_l by lia. }
  assert (H1 : values df1 = take p vs ++ [empty_row] ++ drop p vs).
  { subst df1. unfold insertRows, emit. cbn [snd _df values].
    unfold slice_to, slice_from. fold vs. rewrite Hb, Hc. reflexivity. }
  assert (Hc1 : columns df1 = COLUMNS) by (subst df1; exact Hc).
  split; [exact H1|].
  unfold add_row. cbn [default from_option id].
  fold df1. destruct (next_po rt position df1) as [n|].
  - assert (Hset : at_set position PO_NO (CInt n) df1
             = {| columns := COLUMNS;
                  values := take p vs ++ [<[0 := CInt n]> empty_row] ++ drop p vs |}).
    { unfold at_set, has_column, positions. rewrite Hc1. cbn [bool_decide].
      change (bool_decide (PO_NO ∈ COLUMNS)) with true. cbv iota.
      change (positions_from PO_NO 0 COLUMNS) with [0]. rewrite Hc1, H1.
      assert (Hlt : ((0 <=? position) && (position <?
                 Z.of_nat (length (take p vs ++ [empty_row] ++ drop p vs))))%Z = true).
      { rewrite !length_app, length_take, length_drop. cbn [length].
        apply andb_true_iff. rewrite Z.leb_le, Z.ltb_lt. lia. }
      rewrite Hlt. f_equal.
      assert (Hlen : length (take p vs) = p) by (rewrite length_take; lia).
      rewrite alter_app_r_alt by lia. rewrite Hlen, Nat.sub_diag. reflexivity. }
    cbn [model with_model _df]. by rewrite Hset.
  - rewrite update_total_model. cbn [model with_model]. fold df1.
    split; [exact Hc1|exact H1].
Qed.

(** After a record whose order number spells a number, the new record
    carries that same number. *)
Lemma add_row_digit_predecessor rt (position : Z) (tab : CompanyTab)
    (r : list cell) ds :
  columns (_df (model tab)) = COLUMNS ->
  (0 < position <= rowCount (model tab))%Z ->
  values (_df (model tab)) !! (Z.to_nat position - 1) = Some r ->
  cell_at r 0 = CStr ds ->
  ds ≠ [] -> all_ascii_digits ds -> length ds <= 640 ->
  values (_df (model (add_row rt (Some position) tab))) !! Z.to_nat position
  = Some (<[0 := CInt (digits_value ds)]> (replicate 14 (CStr []))).
Proof.
  intros Hc Hp Hr Hcell Hne Hd Hlen.
  destruct (add_row_values rt position tab Hc) as (H1 & _ & Hv); [lia|].
  unfold rowCount in Hp.
  set (vs := values (_df (model tab))) in *.
  set (p := Z.to_nat position) in *.
  assert (Hlt : length (take p vs) = p) by (rewrite length_take; lia).
  assert (Hget : at_get (position - 1) PO_NO
                   (_df (insertRows position 1 (model tab)).2) = Some (CStr ds)).
  { unfold at_get, positions.
    change (columns (_df (insertRows position 1 (model tab)).2))
      with (columns (_df (model tab))).
    rewrite Hc. change (positions_from PO_NO 0 COLUMNS) with [0].
    rewrite H1.
    assert (((0 <=? position - 1) && (position - 1 <?
               Z.of_nat (length (take p vs ++ [replicate 14 (CStr [])] ++ drop p vs))))%Z
            = true) as ->.
    { rewrite !length_app, Hlt, length_drop. cbn [length].
      apply andb_true_iff. rewrite Z.leb_le, Z.ltb_lt. lia. }
    replace (Z.to_nat (position - 1)) with (p - 1) by lia.
    rewrite lookup_app_l by lia. rewrite lookup_take_lt by lia.
    rewrite Hr. cbn [fmap option_fmap option_map]. by rewrite Hcell. }
  rewrite Hv, (next_po_digits rt position _ ds (proj1 Hp) Hget Hne Hd Hlen).
  rewrite lookup_app_r by lia. by rewrite Hlt, Nat.sub_diag.
Qed.

End Digits.

(* ===================================================================== *)
(** * The order number of a new row *)
(* ===================================================================== *)

(** C1: the code does not increment.  After a row whose order number is
    "7", [add_row] numbers the new row 7, not 8: [int(str(prev))] is stored
    as it is read, without the increment that the specification, and the comment
    "PO_No. auto-increment" in the code, announce.  Two rows added to an
    empty table are both numbered 1. *)
Theorem add_row_repeats_previous_number (rt : Runtime) :
  po_column (add_row rt (Some 1) (tab_of [record (lit "7") [] [] [] []] []))
  = [text "7"; CInt 7]
  ∧ po_column (add_row rt None (add_row rt None (tab_of [] [])))
    = [CInt 1; CInt 1].
Proof. split; vm_compute; reflexivity. Qed.

(** The other two branches do what the specification says: a predecessor that is
    not a digit string gives [position + 1], ... *)
Example add_row_falls_back (rt : Runtime) :
  po_column (add_row rt (Some 1) (tab_of [record (lit "A-7") [] [] [] []] []))
  = [text "A-7"; CInt 2].
Proof. vm_compute. reflexivity. Qed.

(** ... and a predecessor that [isdigit] accepts but [int] rejects (here a
    superscript two) leaves the new field blank. *)
Example add_row_leaves_blank :
  po_column (add_row latin1_runtime (Some 1)
               (tab_of [record [178%N] [] [] [] []] []))
  = [CStr [178%N]; blank].
Proof. vm_compute. reflexivity. Qed.

Example add_row_first (rt : Runtime) :
  po_column (add_row rt None (tab_of [] [])) = [CInt 1].
Proof. vm_compute. reflexivity. Qed.


Lemma add_row_exception (rt : Runtime) (position : Z) (tab : CompanyTab) :
  next_po rt position (_df (insertRows position 1 (model tab)).2) = None ->
  _df (model (add_row rt (Some position) tab))
  = _df (insertRows position 1 (model tab)).2.
Proof.
  intros H. unfold add_row. cbn [default from_option id]. rewrite H.
  unfold update_total, with_model, with_label. cbn [model _df].
  by destruct (column_tolist AMOUNT _).
Qed.

(* ===================================================================== *)
(** * The running total *)
(* ===================================================================== *)

Lemma amount_sum_app (rt : Runtime) (xs ys : list cell) :
  amount_sum rt (xs ++ ys) = fold_left (add_amount rt) ys (amount_sum rt xs).
Proof. unfold amount_sum. apply fold_left_app. Qed.

(** C9: the total adds [float(money_to_csv(x))] for every amount that is not
    blank; an amount whose normalised text is not a float literal adds
    nothing and raises nothing, and the label always shows the sum.  The
    amounts "10,00", "abc" and "5,50" sum to the float 15.5 (the mantissa
    below times 2^-49 is 31/2), shown as "Total: 15,50". *)
Theorem running_total :
  (∀ rt s x v, strip (py_str x) ≠ [] ->
     py_float rt (money_to_csv x) = Some v -> add_amount rt s x = fadd s v)
  ∧ (∀ rt xs x ys, py_float rt (money_to_csv x) = None ->
       amount_sum rt (xs ++ x :: ys) = amount_sum rt (xs ++ ys))
  ∧ (∀ rt tab xs, column_tolist AMOUNT (_df (model tab)) = Some xs ->
       total_label (update_total rt tab)
       = replace 88 [DOT] (replace DOT [COMMA] (replace COMMA [88%N]
           (lit "Total: " ++ format_2f (amount_sum rt xs)))))
  ∧ (∀ rt, amount_sum rt [text "10,00"; text "abc"; text "5,50"]
           = S754_finite false 8725724278030336 (-49))
  ∧ Z.pos 8725724278030336 * 2 ^ 1 = 31 * 2 ^ 49
  ∧ (∀ rt, total_label (update_total rt
             (tab_of [ record [] (lit "10,00") [] [] [];
                       record [] (lit "abc") [] [] [];
                       record [] (lit "5,50") [] [] [] ] []))
           = lit "Total: 15,50").
Proof.
  split; [|split; [|split; [|split; [|split]]]].
  - intros rt s x v Hne Hv. unfold add_amount.
    destruct (strip (py_str x)); [done|]. by rewrite Hv.
  - intros rt xs x ys Hx. rewrite !amount_sum_app. cbn [fold_left].
    f_equal. unfold add_amount. rewrite Hx. by destruct (strip (py_str x)).
  - intros rt tab xs Hxs. unfold update_total. by rewrite Hxs.
  - intros rt. vm_compute. reflexivity.
  - reflexivity.
  - intros rt. vm_compute. reflexivity.
Qed.

Lemma running_total_witness :
  add_amount latin1_runtime (S754_zero false) (text "5,50")
  = fadd (S754_zero false) (S754_finite false 6192449487634432 (-50))
  ∧ amount_sum latin1_runtime ([text "10,00"] ++ text "abc" :: [text "5,50"])
    = amount_sum latin1_runtime ([text "10,00"] ++ [text "5,50"]).
Proof.
  destruct running_total as (H1 & H2 & _). split.
  - apply H1; [by vm_compute|]. vm_compute. reflexivity.
  - apply H2. vm_compute. reflexivity.
Defined.

(* ===================================================================== *)
(** * The theorems at work on the sample data *)
(* ===================================================================== *)

Lemma NoDup_sample_source : NoDup (columns sample_source).
Proof. apply (bool_decide_unpack _). by vm_compute. Defined.

Lemma frame_ok_sample_source : frame_ok sample_source.
Proof. repeat constructor. Defined.

Lemma load_data_schema_witness :
  ∃ df', coerce sample_source = Some df'
         ∧ columns df' = COLUMNS
         ∧ values df' !! 1%nat
           = Some (record (lit "8") [] [] [] []).
Proof.
  destruct (load_data_schema sample_source NoDup_sample_source
              frame_ok_sample_source) as (df' & Hco & Hcols & _).
  exists df'. split; [exact Hco|]. split; [exact Hcols|].
  assert (E : Some df' = coerce sample_source) by (by rewrite Hco).
  vm_compute in E. injection E as ->. reflexivity.
Defined.

Lemma export_cells_clean_witness :
  values (normalized (_df (model sample_tab)))
  = [ record (lit "7") (lit "1000.00") (lit "RO49AAAA1234567890123456")
        (lit "FR1420041010050500013M02606") (lit "rent May") ]
  ∧ ∀ r' y, r' ∈ values (normalized (_df (model sample_tab))) -> y ∈ r' ->
      ∃ t, y = CStr t ∧ (CR ∉ t) ∧ (LF ∉ t) ∧ strip t = t.
Proof.
  split; [by vm_compute|].
  apply (export_cells_clean (_df (model sample_tab))).
  - apply NoDup_COLUMNS.
  - repeat constructor.
Defined.

Lemma export_write_failure_witness :
  ∃ tab' fs',
    export_csv toy_csv disk_full sample_tab old_files
    = (ExportError (lit "No space left on device"), tab', fs')
    ∧ fs' !! lit "out.csv" = Some (lit "previous export").
Proof.
  destruct (export_write_failure toy_csv disk_full sample_tab old_files
              (Some (lit "7,1000")) (lit "No space left on device"))
    as (tab' & fs' & H & _ & _ & Hp & _).
  - reflexivity.
  - by vm_compute.
  - reflexivity.
  - exists tab', fs'. split; [exact H|].
    exact (eq_trans Hp eq_refl).
Defined.

Lemma iban_check_and_warnings_witness :
  (∃ bad tab' fs',
     iban_warnings (normalized (_df (model sample_tab))) = inr bad
     ∧ bad = [(1, PAYEE_IBAN)]
     ∧ export_csv toy_csv no_faults sample_tab old_files = (Exported, tab', fs')
     ∧ is_Some (fs' !! lit "out.csv"))
  ∧ iban_shape (lit "ro12" ++ [LF]).
Proof.
  destruct iban_check_and_warnings as (Hshape & _ & _ & _ & Hexp). split.
  - destruct (Hexp toy_csv sample_tab old_files)
      as (bad & tab' & fs' & Hbad & H & Hp & _).
    + by vm_compute.
    + reflexivity.
    + exists bad, tab', fs'. split; [exact Hbad|]. split.
      * assert (E : inr bad = iban_warnings (normalized (_df (model sample_tab))))
          by (by rewrite Hbad).
        vm_compute in E. by injection E as ->.
      * split; [exact H|].
        eexists. exact Hp.
  - apply Hshape. reflexivity.
Defined.

(* ===================================================================== *)
(** * More on the table model *)
(* ===================================================================== *)

Section ModelFacts.

Local Open Scope nat_scope.

Lemma slice_to_from {A} (p : Z) (l : list A) : slice_to p l ++ slice_from p l = l.
Proof. unfold slice_to, slice_from. apply take_drop. Qed.

Lemma slice_bound_inside (n : nat) (p : Z) :
  (0 <= p <= Z.of_nat n)%Z -> slice_bound n p = Z.to_nat p.
Proof.
  intros H. unfold slice_bound. destruct (Z.ltb_spec p 0); [lia|].
  by rewrite Z.min_l by lia.
Qed.

Lemma frame_ok_alt df :
  frame_ok df ↔ ∀ r, r ∈ values df -> length r = length (columns df).
Proof. unfold frame_ok. apply Forall_forall. Qed.

Lemma elem_of_take_in {A} (n : nat) (l : list A) (x : A) : x ∈ take n l -> x ∈ l.
Proof. intros H. rewrite <- (take_drop n l). apply elem_of_app. by left. Qed.

Lemma elem_of_drop_in {A} (n : nat) (l : list A) (x : A) : x ∈ drop n l -> x ∈ l.
Proof. intros H. rewrite <- (take_drop n l). apply elem_of_app. by right. Qed.

Lemma drop_rows_subset {A} (start stop : Z) (l : list A) (x : A) :
  x ∈ drop_rows start stop l -> x ∈ l.
Proof.
  rewrite drop_rows_spec, elem_of_app.
  intros [H|H]; [by eapply elem_of_take_in|by eapply elem_of_drop_in].
Qed.

Lemma subscript_inside (n : nat) (i : Z) :
  (0 <= i < Z.of_nat n)%Z -> subscript n i = Some (Z.to_nat i).
Proof.
  intros H. unfold subscript.
  destruct (Z.leb_spec 0 i); [|lia]. by destruct (Z.ltb_spec i (Z.of_nat n)); [|lia].
Qed.

Lemma subscript_lt (n : nat) (i : Z) (k : nat) : subscript n i = Some k -> k < n.
Proof.
  unfold subscript.
  destruct (Z.leb_spec 0 i), (Z.ltb_spec i (Z.of_nat n)); cbn [andb];
    try (intros [= <-]; lia);
    destruct (Z.leb_spec (- Z.of_nat n) i), (Z.ltb_spec i 0); cbn [andb];
    try done; intros [= <-]; lia.
Qed.

End ModelFacts.

(** X1: [insertRows] never loses or reorders a record, wherever it is told
    to insert: the old records are split in two, and the blank records (one
    empty string per column) go in between; it returns [True] and the table
    grows by [max rows 0].  For a position between 0 and the size, the split
    is at that position. *)
Theorem insertRows_keeps_records (position rows : Z) (m : PandasModel) :
  ∃ m' before after,
    insertRows position rows m = (true, m')
    ∧ columns (_df m') = columns (_df m)
    ∧ values (_df m) = before ++ after
    ∧ values (_df m')
      = before
        ++ replicate (Z.to_nat rows)
             (replicate (length (columns (_df m))) (CStr []))
        ++ after
    ∧ rowCount m' = rowCount m + Z.max rows 0
    ∧ (0 <= position <= rowCount m -> length before = Z.to_nat position).
Proof.
  unfold insertRows, emit, rowCount. cbn [_df values columns].
  eexists _, (slice_to position (values (_df m))),
              (slice_from position (values (_df m))).
  split; [reflexivity|]. split; [reflexivity|].
  split; [by rewrite slice_to_from|]. split; [reflexivity|]. split.
  - cbn [_df values columns]. rewrite !length_app, length_replicate.
    rewrite <- (slice_to_from position (values (_df m))) at 3.
    rewrite length_app. lia.
  - intros H. unfold slice_to. rewrite slice_bound_inside by lia.
    rewrite length_take. lia.
Qed.

Lemma insertRows_keeps_records_witness :
  ∃ m' before after,
    insertRows 1 2 three_rows = (true, m')
    ∧ values (_df three_rows) = before ++ after
    ∧ length before = 1%nat
    ∧ rowCount m' = 5.
Proof.
  destruct (insertRows_keeps_records 1 2 three_rows)
    as (m' & before & after & H & _ & Hs & _ & Hn & Hl).
  exists m', before, after. split; [exact H|]. split; [exact Hs|].
  split; [apply Hl; by vm_compute|]. rewrite Hn. reflexivity.
Defined.

(** X2: inserting [rows] blank records at a position of the table and
    removing [rows] records at the same position gives the frame back. *)
Theorem insert_then_remove (position rows : Z) (m : PandasModel) :
  0 <= position <= rowCount m -> 1 <= rows ->
  ∃ m'', removeRows position rows (insertRows position rows m).2 = (true, m'')
         ∧ _df m'' = _df m.
Proof.
  intros Hp Hr. unfold rowCount in Hp.
  unfold insertRows, emit. cbn [snd].
  set (vs := values (_df m)) in *.
  set (bl := replicate (Z.to_nat rows) _).
  assert (Hto : slice_to position vs = take (Z.to_nat position) vs).
  { unfold slice_to. by rewrite slice_bound_inside by lia. }
  assert (Hfrom : slice_from position vs = drop (Z.to_nat position) vs).
  { unfold slice_from. by rewrite slice_bound_inside by lia. }
  assert (Hlt : length (take (Z.to_nat position) vs) = Z.to_nat position).
  { rewrite length_take. lia. }
  assert (Hbl : length bl = Z.to_nat rows) by apply length_replicate.
  unfold removeRows, rowCount. cbn [_df values columns].
  rewrite Hto, Hfrom.
  destruct (Z.ltb_spec position 0); [lia|].
  destruct (Z.geb_spec position
              (Z.of_nat (length (take (Z.to_nat position) vs ++ bl
                                 ++ drop (Z.to_nat position) vs)))) as [Hge|_].
  { rewrite !length_app, Hlt, Hbl in Hge. lia. }
  cbn [orb]. eexists. split; [reflexivity|]. unfold emit. cbn [_df].
  rewrite drop_rows_inside; cycle 1.
  { rewrite !length_app, Hlt, Hbl. lia. }
  { done. }
  rewrite take_app_length' by lia.
  replace (Z.to_nat (position + rows))
    with (length (take (Z.to_nat position) vs ++ bl) + 0)%nat
    by (rewrite length_app, Hlt, Hbl; lia).
  rewrite (app_assoc _ bl), drop_app_add.
  change (drop 0 (drop (Z.to_nat position) vs)) with (drop (Z.to_nat position) vs).
  rewrite take_drop. subst vs. by destruct (_df m).
Qed.

Lemma insert_then_remove_witness :
  ∃ m'', removeRows 3 2 (insertRows 3 2 three_rows).2 = (true, m'')
         ∧ _df m'' = _df three_rows.
Proof. apply insert_then_remove; by vm_compute. Defined.

(** X3: [insertRows], [removeRows] and [setData] keep the table
    rectangular (one cell per column in every record) and keep its columns,
    whatever their arguments; [setData] also keeps the number of records. *)
Theorem model_keeps_frame (m : PandasModel) :
  frame_ok (_df m) ->
  (∀ position rows,
     frame_ok (_df (insertRows position rows m).2)
     ∧ columns (_df (insertRows position rows m).2) = columns (_df m))
  ∧ (∀ position rows,
       frame_ok (_df (removeRows position rows m).2)
       ∧ columns (_df (removeRows position rows m).2) = columns (_df m))
  ∧ (∀ index value r ret emits m',
       setData index value r m = Some (ret, emits, m') ->
       frame_ok (_df m')
       ∧ columns (_df m') = columns (_df m)
       ∧ rowCount m' = rowCount m).
Proof.
  intros Hok. pose proof (proj1 (frame_ok_alt _) Hok) as Hrows.
  split; [|split].
  - intros position rows. split; [|reflexivity].
    apply frame_ok_alt. unfold insertRows, emit. cbn [snd _df values columns].
    intros r. rewrite !elem_of_app. intros [H|[H|H]].
    + apply Hrows. unfold slice_to in H. by eapply elem_of_take_in.
    + apply elem_of_replicate in H as [-> _]. apply length_replicate.
    + apply Hrows. unfold slice_from in H. by eapply elem_of_drop_in.
  - intros position rows. unfold removeRows.
    destruct (_ || _); [done|]. split; [|reflexivity].
    apply frame_ok_alt. unfold emit. cbn [snd _df values columns].
    intros r H. apply Hrows. by eapply drop_rows_subset.
  - intros index value r ret emits m' H. unfold setData in H.
    destruct r, index as [|row col]; try (injection H as <- <- <-; done).
    destruct (isValid (Index row col)); [|injection H as <- <- <-; done].
    unfold iat_set in H.
    destruct (subscript (length (values (_df m))) row) as [i|]; [|done].
    destruct (subscript (length (columns (_df m))) col) as [j|]; [|done].
    injection H as <- <- <-. unfold emit, rowCount. cbn [_df values columns].
    split; [|split; [reflexivity|by rewrite length_alter]].
    apply frame_ok_alt. cbn [values columns]. intros r Hr.
    apply list_elem_of_lookup in Hr as (k & Hk).
    destruct (decide (i = k)) as [->|Hne].
    + rewrite list_lookup_alter_eq in Hk.
      destruct (values (_df m) !! k) as [r0|] eqn:E; [|done].
      injection Hk as <-. rewrite length_insert. apply Hrows.
      by eapply list_elem_of_lookup_2.
    + rewrite list_lookup_alter_ne in Hk by done. apply Hrows.
      by eapply list_elem_of_lookup_2.
Qed.

Lemma frame_ok_three_rows : frame_ok (_df three_rows).
Proof. repeat constructor. Defined.

Lemma model_keeps_frame_witness :
  frame_ok (_df (insertRows (-1) 2 three_rows).2)
  ∧ frame_ok (_df (removeRows 1 7 three_rows).2)
  ∧ ∀ ret emits m',
      setData (Index 1 1) (text "12,5") EditRole three_rows = Some (ret, emits, m') ->
      rowCount m' = 3.
Proof.
  destruct (model_keeps_frame three_rows frame_ok_three_rows) as (Hi & Hr & Hs).
  split; [apply Hi|]. split; [apply Hr|].
  intros ret emits m' H. by destruct (Hs _ _ _ _ _ _ H) as (_ & _ & ->).
Defined.

(* ===================================================================== *)
(** * Reading and writing one cell *)
(* ===================================================================== *)

Section CellFacts.

Local Open Scope nat_scope.

Lemma iat_get_inside (row col : Z) (df : DataFrame) :
  (0 <= row < Z.of_nat (length (values df)))%Z ->
  (0 <= col < Z.of_nat (length (columns df)))%Z ->
  iat_get row col df
  = (fun r => cell_at r (Z.to_nat col)) <$> values df !! Z.to_nat row.
Proof.
  intros Hr Hc. unfold iat_get. by rewrite !subscript_inside by done.
Qed.

Lemma iat_get_outside (row col : Z) (df : DataFrame) :
  (0 <= row)%Z -> (0 <= col)%Z ->
  (Z.of_nat (length (values df)) <= row)%Z
  ∨ (Z.of_nat (length (columns df)) <= col)%Z ->
  iat_get row col df = None.
Proof.
  intros Hr Hc H. unfold iat_get, subscript.
  destruct (Z.leb_spec 0 row); [|lia]. destruct (Z.leb_spec 0 col); [|lia].
  destruct (Z.ltb_spec row 0); [lia|]. destruct (Z.ltb_spec col 0); [lia|].
  rewrite !andb_false_r. cbn [andb].
  destruct (Z.ltb_spec row (Z.of_nat (length (values df)))); [|done].
  destruct (Z.ltb_spec col (Z.of_nat (length (columns df)))); [lia|done].
Qed.

End CellFacts.

(** X4: a value written with [setData] at a cell of the table is the value
    [data] shows there afterwards (an absent value shows as the empty
    string); every other cell reads as before, and the model's change signal
    is emitted once. *)
Theorem setData_then_data (row col : Z) (value : cell) (m : PandasModel) :
  frame_ok (_df m) ->
  0 <= row < rowCount m -> 0 <= col < columnCount m ->
  ∃ m',
    setData (Index row col) value EditRole m = Some (true, [Index row col], m')
    ∧ data (Index row col) DisplayRole m'
      = Some (Text (if isna value then [] else py_str value))
    ∧ (∀ r row' col', (row', col') ≠ (row, col) ->
         data (Index row' col') r m' = data (Index row' col') r m)
    ∧ emitted m' = emitted m ++ [DataChangedSignal].
Proof.
  intros Hok Hr Hc. unfold rowCount, columnCount in *.
  pose proof (proj1 (frame_ok_alt _) Hok) as Hrows.
  set (df := _df m) in *.
  destruct (lookup_lt_is_Some_2 (values df) (Z.to_nat row)) as [r0 Hr0]; [lia|].
  assert (Hlen0 : length r0 = length (columns df)).
  { apply Hrows. by eapply list_elem_of_lookup_2. }
  set (df' := {| columns := columns df;
                 values := alter (fun r => <[Z.to_nat col := value]> r)
                                 (Z.to_nat row) (values df) |}).
  assert (Hset : iat_set row col value df = Some df').
  { unfold iat_set. by rewrite !subscript_inside by done. }
  assert (Hvalid : isValid (Index row col) = true).
  { unfold isValid. apply andb_true_iff. rewrite !Z.leb_le. lia. }
  assert (Hget : ∀ row' col', (0 <= row')%Z -> (0 <= col')%Z ->
            iat_get row' col' df'
            = if decide ((row', col') = (row, col)) then Some value
              else iat_get row' col' df).
  { intros row' col' Hr' Hc'.
    destruct (decide (row' < Z.of_nat (length (values df))
                      ∧ col' < Z.of_nat (length (columns df)))%Z) as [[? ?]|Hout].
    - rewrite !iat_get_inside; cbn [values columns df'];
        rewrite ?length_alter; try lia.
      destruct (decide (Z.to_nat row' = Z.to_nat row)) as [E|Hne].
      + rewrite E, list_lookup_alter_eq, Hr0. cbn [fmap option_fmap option_map].
        unfold cell_at. destruct (decide ((row', col') = (row, col))) as [[= -> ->]|Hd].
        * by rewrite list_lookup_insert_eq by lia.
        * rewrite list_lookup_insert_ne; [done|].
          intros E'. apply Hd. f_equal; lia.
      + rewrite list_lookup_alter_ne by done.
        destruct (decide ((row', col') = (row, col))) as [[= -> ->]|Hd]; done.
    - destruct (decide ((row', col') = (row, col))) as [[= -> ->]|Hd]; [lia|].
      rewrite !iat_get_outside; cbn [values columns df'];
        rewrite ?length_alter; try done; lia. }
  exists (emit m df' [DataChangedSignal]).
  split; [|split; [|split]].
  - unfold setData. rewrite Hvalid. fold df. by rewrite Hset.
  - unfold data. rewrite Hvalid. unfold emit. cbn [_df].
    rewrite Hget by lia. by rewrite decide_True.
  - intros r row' col' Hne. unfold data, emit. cbn [_df]. fold df.
    destruct (isValid (Index row' col')) eqn:Hv; [|done].
    unfold isValid in Hv. apply andb_true_iff in Hv as [Hv1 Hv2].
    apply Z.leb_le in Hv1, Hv2.
    rewrite Hget by done. by rewrite decide_False.
  - reflexivity.
Qed.

Lemma setData_then_data_witness :
  ∃ m', setData (Index 1 1) (text "12,5") EditRole three_rows
        = Some (true, [Index 1 1], m')
        ∧ data (Index 1 1) DisplayRole m' = Some (Text (lit "12,5")).
Proof.
  destruct (setData_then_data 1 1 (text "12,5") three_rows)
    as (m' & H1 & H2 & _).
  - repeat constructor.
  - by vm_compute.
  - by vm_compute.
  - exists m'. split; [exact H1|exact H2].
Defined.

(** X5: [setData] refuses, returning [False] and changing nothing, when the
    role is not the edit role or the index is invalid; for a valid index
    outside the table it raises ([iat] is out of bounds). *)
Theorem setData_refuses (m : PandasModel) :
  (∀ index value r,
     r ≠ EditRole ∨ isValid index = false ->
     setData index value r m = Some (false, [], m))
  ∧ (∀ row col value,
       0 <= row -> 0 <= col ->
       rowCount m <= row ∨ columnCount m <= col ->
       setData (Index row col) value EditRole m = None).
Proof.
  split.
  - intros index value r [Hr|Hi]; unfold setData.
    + by destruct r, index.
    + destruct r, index; try done. by rewrite Hi.
  - intros row col value Hr Hc Hout. unfold setData.
    assert (isValid (Index row col) = true) as ->.
    { unfold isValid. apply andb_true_iff. by rewrite !Z.leb_le. }
    unfold iat_set, subscript, rowCount, columnCount in *.
    destruct (Z.leb_spec 0 row); [|lia]. destruct (Z.leb_spec 0 col); [|lia].
    destruct (Z.ltb_spec row 0); [lia|]. destruct (Z.ltb_spec col 0); [lia|].
    rewrite !andb_false_r. cbn [andb].
    destruct (Z.ltb_spec row (Z.of_nat (length (values (_df m))))); [|done].
    destruct (Z.ltb_spec col (Z.of_nat (length (columns (_df m))))); [lia|done].
Qed.

Lemma setData_refuses_witness :
  setData InvalidIndex (text "x") EditRole three_rows = Some (false, [], three_rows)
  ∧ setData (Index 0 0) (text "x") DisplayRole three_rows = Some (false, [], three_rows)
  ∧ setData (Index 3 0) (text "x") EditRole three_rows = None.
Proof.
  destruct (setData_refuses three_rows) as [H1 H2]. split; [|split].
  - apply H1. by right.
  - apply H1. by left.
  - apply H2; [by vm_compute|by vm_compute|]. left. by vm_compute.
Defined.

(* ===================================================================== *)
(** * The red cells of the table and the warning of the export *)
(* ===================================================================== *)

Section ColourFacts.

Local Open Scope nat_scope.










Lemma PAYER_ne_PAYEE : PAYER_IBAN ≠ PAYEE_IBAN.
Proof. done. Qed.

End ColourFacts.

Section RedFacts.

Local Open Scope nat_scope.




End RedFacts.



(* ===================================================================== *)
(** * Adding a record through the tab *)
(* ===================================================================== *)

Section AddRowFacts.

Context (rt : Runtime).

Lemma insertRows_one_values (position : Z) (m : PandasModel) :
  columns (_df m) = COLUMNS ->
  0 <= position <= rowCount m ->
  values (_df (insertRows position 1 m).2)
  = take (Z.to_nat position) (values (_df m))
    ++ [replicate 14 (CStr [])] ++ drop (Z.to_nat position) (values (_df m)).
Proof.
  intros Hc Hp. unfold rowCount in Hp.
  unfold insertRows, emit. cbn [snd _df values].
  unfold slice_to, slice_from. rewrite slice_bound_inside by done.
  by rewrite Hc.
Qed.



(** [add_row] touches the model and the label only. *)
Lemma add_row_other_fields (position : option Z) (tab : CompanyTab) :
  path_edit (add_row rt position tab) = path_edit tab
  ∧ dialogs (add_row rt position tab) = dialogs tab
  ∧ no_header_chk (add_row rt position tab) = no_header_chk tab
  ∧ crlf_chk (add_row rt position tab) = crlf_chk tab
  ∧ bom_chk (add_row rt position tab) = bom_chk tab.
Proof.
  unfold add_row, update_total.
  destruct (next_po _ _ _), (column_tolist _ _); done.
Qed.

(** The amounts after [add_row]: a blank one more, at the new position. *)
Lemma add_row_amounts (position : Z) (tab : CompanyTab) :
  columns (_df (model tab)) = COLUMNS ->
  0 <= position <= rowCount (model tab) ->
  ∃ xs, amounts tab = Some xs
        ∧ amounts (with_model (insertRows position 1 (model tab)).2 tab)
          = Some (take (Z.to_nat position) xs ++ [CStr []]
                  ++ drop (Z.to_nat position) xs)
        ∧ amounts (add_row rt (Some position) tab)
          = Some (take (Z.to_nat position) xs ++ [CStr []]
                  ++ drop (Z.to_nat position) xs).
Proof.
  intros Hc Hp.
  destruct (add_row_values rt position tab Hc Hp) as (_ & Hc' & Hv).
  unfold amounts. cbn [model with_model].
  rewrite (column_tolist_schema AMOUNT _ 1 Hc eq_refl).
  rewrite (column_tolist_schema AMOUNT _ 1 Hc' eq_refl).
  rewrite (column_tolist_schema AMOUNT (_df (insertRows position 1 (model tab)).2) 1);
    [|exact Hc|done].
  eexists. split; [reflexivity|].
  rewrite Hv, insertRows_one_values by done.
  rewrite !fmap_app, !fmap_take, !fmap_drop. cbn [fmap list_fmap].
  split; [done|]. do 3 f_equal.
  by destruct (next_po _ _ _).
Qed.

Lemma add_amount_blank (s : float) : add_amount rt s (CStr []) = s.
Proof. reflexivity. Qed.

Lemma amount_sum_insert_blank (xs ys : list cell) :
  amount_sum rt (xs ++ [CStr []] ++ ys) = amount_sum rt (xs ++ ys).
Proof. by rewrite !amount_sum_app. Qed.

(** The label [update_total] writes is a function of the amounts. *)
Lemma update_total_label (tab tab' : CompanyTab) (xs xs' : list cell) :
  amounts tab = Some xs -> amounts tab' = Some xs' ->
  amount_sum rt xs = amount_sum rt xs' ->
  total_label (update_total rt tab) = total_label (update_total rt tab').
Proof.
  unfold amounts, update_total. intros -> -> E. cbn [total_label with_label].
  by rewrite E.
Qed.

End AddRowFacts.

(** X7: on a table with the schema's columns, [add_row] at a position of
    the table (or at its end, when no position is given) inserts exactly one
    record there and leaves every other record as it was, in the same order.
    The new record has 14 fields, all empty except possibly the first, which
    is empty or a number; the table stays rectangular, and the destination
    path, the options and the dialogs shown are not touched. *)
Theorem add_row_keeps_records (rt : Runtime) (position : option Z)
    (tab : CompanyTab) :
  columns (_df (model tab)) = COLUMNS ->
  frame_ok (_df (model tab)) ->
  (∀ p, position = Some p -> 0 <= p <= rowCount (model tab)) ->
  ∃ before new after,
    values (_df (model tab)) = before ++ after
    ∧ values (_df (model (add_row rt position tab))) = before ++ [new] ++ after
    ∧ Z.of_nat (length before) = default (rowCount (model tab)) position
    ∧ length new = 14%nat
    ∧ (∀ j x, new !! j = Some x -> j ≠ 0%nat -> x = CStr [])
    ∧ (new !! 0%nat = Some (CStr []) ∨ ∃ n, new !! 0%nat = Some (CInt n))
    ∧ columns (_df (model (add_row rt position tab))) = COLUMNS
    ∧ frame_ok (_df (model (add_row rt position tab)))
    ∧ path_edit (add_row rt position tab) = path_edit tab
    ∧ dialogs (add_row rt position tab) = dialogs tab.
Proof.
  intros Hc Hok Hpos.
  set (p := default (rowCount (model tab)) position).
  assert (Hadd : add_row rt position tab = add_row rt (Some p) tab).
  { subst p. by destruct position. }
  assert (Hp : 0 <= p <= rowCount (model tab)).
  { subst p. destruct position as [q|]; [by apply Hpos|].
    cbn [default from_option id]. unfold rowCount. lia. }
  rewrite Hadd.
  destruct (add_row_values rt p tab Hc Hp) as (_ & Hc' & Hv).
  destruct (add_row_other_fields rt (Some p) tab) as (Hpath & Hdlg & _).
  set (new := match next_po rt p _ with
              | Some n => <[0%nat := CInt n]> (replicate 14 (CStr []))
              | None => replicate 14 (CStr [])
              end) in Hv.
  assert (Hlen : length new = 14%nat).
  { subst new. by destruct (next_po _ _ _). }
  exists (take (Z.to_nat p) (values (_df (model tab)))), new,
         (drop (Z.to_nat p) (values (_df (model tab)))).
  split; [by rewrite take_drop|]. split; [exact Hv|].
  split; [unfold rowCount in Hp; rewrite length_take; lia|].
  split; [exact Hlen|]. split; [|split; [|split; [exact Hc'|split; [|done]]]].
  - intros j x Hj Hne. subst new. destruct (next_po _ _ _).
    + rewrite list_lookup_insert_ne in Hj by done.
      by apply lookup_replicate in Hj as [-> _].
    + by apply lookup_replicate in Hj as [-> _].
  - subst new. destruct (next_po _ _ _) as [n|]; [right; by exists n|by left].
  - apply frame_ok_alt. intros r. rewrite Hv, Hc', !elem_of_app.
    pose proof (proj1 (frame_ok_alt _) Hok) as Hrows. rewrite Hc in Hrows.
    intros [H|[H|H]].
    + by apply Hrows, (elem_of_take_in (Z.to_nat p)).
    + apply list_elem_of_singleton in H as ->. exact Hlen.
    + by apply Hrows, (elem_of_drop_in (Z.to_nat p)).
Qed.

Lemma add_row_keeps_records_witness :
  ∃ before new after,
    values (_df (model (tab_of (values (_df three_rows)) [])))
    = before ++ after
    ∧ values (_df (model (add_row latin1_runtime (Some 1)
                            (tab_of (values (_df three_rows)) []))))
      = before ++ [new] ++ after
    ∧ Z.of_nat (length before) = 1.
Proof.
  destruct (add_row_keeps_records latin1_runtime (Some 1)
              (tab_of (values (_df three_rows)) []))
    as (before & new & after & H1 & H2 & H3 & _).
  - reflexivity.
  - repeat constructor.
  - intros p [= <-]. by vm_compute.
  - exists before, new, after. split; [exact H1|]. split; [exact H2|exact H3].
Defined.



(** X9: adding a record does not change the total.  On a table with the
    schema's columns the label after [add_row] is the label [update_total]
    computes for the table as it was: the new record's amount is empty and
    adds nothing, and the sum still runs over the other amounts in their
    order.  The label is also the one the new table calls for. *)
Theorem add_row_keeps_total (rt : Runtime) (position : option Z)
    (tab : CompanyTab) :
  columns (_df (model tab)) = COLUMNS ->
  (∀ p, position = Some p -> 0 <= p <= rowCount (model tab)) ->
  total_label (add_row rt position tab) = total_label (update_total rt tab)
  ∧ label_current rt (add_row rt position tab).
Proof.
  intros Hc Hpos.
  set (p := default (rowCount (model tab)) position).
  assert (Hadd : add_row rt position tab = add_row rt (Some p) tab).
  { subst p. by destruct position. }
  assert (Hp : 0 <= p <= rowCount (model tab)).
  { subst p. destruct position as [q|]; [by apply Hpos|].
    cbn [default from_option id]. unfold rowCount. lia. }
  rewrite Hadd.
  destruct (add_row_amounts rt p tab Hc Hp) as (xs & Hxs & Hins & Hnew).
  assert (Hsum : amount_sum rt (take (Z.to_nat p) xs ++ [CStr []] ++ drop (Z.to_nat p) xs)
                 = amount_sum rt xs).
  { by rewrite amount_sum_insert_blank, take_drop. }
  assert (Hlabel : total_label (add_row rt (Some p) tab)
                   = total_label (update_total rt
                       (with_model (insertRows p 1 (model tab)).2 tab))).
  { unfold add_row. cbn [default from_option id].
    by destruct (next_po _ _ _). }
  split.
  - rewrite Hlabel. by apply (update_total_label rt _ _ _ _ Hins Hxs).
  - unfold label_current. rewrite Hlabel.
    apply (update_total_label rt _ _ _ _ Hins Hnew). reflexivity.
Qed.

Lemma add_row_keeps_total_witness :
  total_label (add_row latin1_runtime (Some 1) sample_tab)
  = total_label (update_total latin1_runtime sample_tab).
Proof.
  apply add_row_keeps_total.
  - reflexivity.
  - intros p [= <-]. by vm_compute.
Defined.

(* ===================================================================== *)
(** * Deleting a record and editing a cell through the tab *)
(* ===================================================================== *)

Section EditFacts.

Context (rt : Runtime).

Lemma setData_inside (row col : Z) (value : cell) (m : PandasModel) :
  0 <= row < rowCount m -> 0 <= col < columnCount m ->
  setData (Index row col) value EditRole m
  = Some (true, [Index row col],
          emit m {| columns := columns (_df m);
                    values := alter (fun r => <[Z.to_nat col := value]> r)
                                    (Z.to_nat row) (values (_df m)) |}
            [DataChangedSignal]).
Proof.
  intros Hr Hc. unfold rowCount, columnCount in *. unfold setData.
  assert (isValid (Index row col) = true) as ->.
  { unfold isValid. apply andb_true_iff. rewrite !Z.leb_le. lia. }
  unfold iat_set. by rewrite !subscript_inside by done.
Qed.

(** The label is current after [update_total]. *)
Lemma update_total_current (tab : CompanyTab) :
  label_current rt (update_total rt tab).
Proof.
  unfold label_current, update_total.
  by destruct (column_tolist AMOUNT (_df (model tab))) eqn:E;
    cbn [model with_label total_label]; rewrite E.
Qed.

(** One column of a table in which one cell was overwritten. *)
Lemma column_after_edit (vs : list (list cell)) (i j k n : nat) (value : cell) :
  (∀ r, r ∈ vs -> length r = n) -> (j < n)%nat ->
  (fun r => cell_at r k) <$> alter (fun r => <[j := value]> r) i vs
  = if decide (k = j) then <[i := value]> ((fun r => cell_at r k) <$> vs)
    else (fun r => cell_at r k) <$> vs.
Proof.
  intros Hlen Hj. apply list_eq. intros a.
  rewrite list_lookup_fmap.
  destruct (decide (a = i)) as [->|Hne].
  - rewrite list_lookup_alter_eq.
    destruct (vs !! i) as [r|] eqn:Hr; cbn [fmap option_fmap option_map].
    + assert (length r = n) by (by eapply Hlen, list_elem_of_lookup_2).
      destruct (decide (k = j)) as [->|Hkj].
      * rewrite list_lookup_insert_eq
          by (rewrite length_fmap; by eapply lookup_lt_Some).
        unfold cell_at. by rewrite list_lookup_insert_eq by lia.
      * rewrite list_lookup_fmap, Hr. cbn [fmap option_fmap option_map].
        unfold cell_at. by rewrite list_lookup_insert_ne by done.
    + destruct (decide (k = j)).
      * symmetry. apply lookup_ge_None. rewrite length_insert, length_fmap.
        by apply lookup_ge_None.
      * by rewrite list_lookup_fmap, Hr.
  - rewrite list_lookup_alter_ne by done.
    destruct (decide (k = j)).
    + by rewrite list_lookup_insert_ne, list_lookup_fmap by done.
    + by rewrite list_lookup_fmap.
Qed.

End EditFacts.



(** X11: an edit committed in a cell of a table with the schema's columns
    is accepted, and the label then shows the total of the table as edited.
    The amounts the total runs over are the old ones, with the edited value
    in the row of the edit when the cell is in the amount column, and
    unchanged when it is in any other column. *)
Theorem edit_cell_updates_total (rt : Runtime) (row col : Z) (value : cell)
    (tab : CompanyTab) :
  columns (_df (model tab)) = COLUMNS ->
  frame_ok (_df (model tab)) ->
  0 <= row < rowCount (model tab) -> 0 <= col < 14 ->
  ∃ tab' xs,
    edit_cell rt (Index row col) value tab = Some tab'
    ∧ amounts tab = Some xs
    ∧ amounts tab'
      = Some (if decide (col = 1) then <[Z.to_nat row := value]> xs else xs)
    ∧ label_current rt tab'
    ∧ columns (_df (model tab')) = COLUMNS
    ∧ dialogs tab' = dialogs tab.
Proof.
  intros Hc Hok Hrow Hcol. unfold edit_cell.
  rewrite setData_inside by (done || (unfold columnCount; by rewrite Hc)).
  eexists _, _. split; [reflexivity|].
  unfold amounts. rewrite update_total_model. cbn [model with_model emit _df].
  rewrite (column_tolist_schema AMOUNT _ 1 Hc eq_refl).
  split; [reflexivity|].
  split; [|split; [apply update_total_current|split]].
  - rewrite (column_tolist_schema AMOUNT _ 1); [|exact Hc|done].
    cbn [values]. f_equal.
    rewrite (column_after_edit _ _ (Z.to_nat col) 1 14).
    + destruct (decide (1%nat = Z.to_nat col)), (decide (col = 1)); (done || lia).
    + intros r Hr. pose proof (proj1 (frame_ok_alt _) Hok r Hr) as Hl.
      by rewrite Hc in Hl.
    + lia.
  - exact Hc.
  - unfold update_total. by destruct (column_tolist _ _).
Qed.

Lemma edit_cell_updates_total_witness :
  ∃ tab',
    edit_cell latin1_runtime (Index 0 1) (text "2,50") sample_tab = Some tab'
    ∧ amounts tab' = Some [text "2,50"]
    ∧ total_label tab' = lit "Total: 2,50".
Proof.
  destruct (edit_cell_updates_total latin1_runtime 0 1 (text "2,50") sample_tab)
    as (tab' & xs & He & Hxs & Ha & Hl & _).
  - reflexivity.
  - repeat constructor.
  - by vm_compute.
  - by vm_compute.
  - exists tab'. split; [exact He|].
    assert (xs = [text "1.000,00"]) as -> by (by injection Hxs as <-).
    split; [exact Ha|].
    injection He as <-. by vm_compute.
Defined.

(* ===================================================================== *)
(** * Loading a file that already has the schema *)
(* ===================================================================== *)

Section ReimportFacts.

Local Open Scope nat_scope.

Lemma add_missing_none (cs : list pystr) (df : DataFrame) :
  (∀ c, c ∈ cs -> c ∈ columns df) ->
  fold_left (fun d col => if has_column col d then d
                          else setitem_scalar col (CStr []) d) cs df = df.
Proof.
  induction cs as [|c cs IH]; intros Hall; [done|]. cbn [fold_left].
  assert (has_column c df = true) as ->.
  { apply has_column_true, Hall. by left. }
  apply IH. intros c' Hc'. apply Hall. by right.
Qed.

Lemma cells_all (r : list cell) : cell_at r <$> seq 0 (length r) = r.
Proof.
  apply list_eq. intros k. rewrite list_lookup_fmap.
  destruct (decide (k < length r)) as [Hlt|Hge].
  - rewrite lookup_seq_lt by done. cbn [fmap option_fmap option_map Nat.add].
    destruct (lookup_lt_is_Some_2 r k Hlt) as [x Hx].
    unfold cell_at. by rewrite Hx.
  - rewrite lookup_seq_ge by lia. symmetry. apply lookup_ge_None. lia.
Qed.

Lemma fillna_fillna (df : DataFrame) :
  fillna (CStr []) (fillna (CStr []) df) = fillna (CStr []) df.
Proof.
  unfold fillna. cbn [columns values]. f_equal.
  rewrite <- list_fmap_compose. apply list_fmap_ext. intros _ r _.
  cbn. rewrite <- list_fmap_compose. apply list_fmap_ext. intros _ x _.
  by destruct x.
Qed.

Lemma frame_ok_fillna (v : cell) (df : DataFrame) :
  frame_ok df -> frame_ok (fillna v df).
Proof.
  intros Hok. apply frame_ok_alt. intros r' Hr'. cbn [fillna values columns] in *.
  apply list_elem_of_fmap in Hr' as (r & -> & Hr). rewrite length_fmap.
  by apply (proj1 (frame_ok_alt df) Hok).
Qed.

(** On a frame that has the schema's columns the coercion only fills in the
    missing values. *)
Lemma coerce_schema (df : DataFrame) :
  columns df = COLUMNS -> frame_ok df ->
  coerce df = Some (fillna (CStr []) df).
Proof.
  intros Hc Hok. unfold coerce, add_missing.
  rewrite add_missing_none by (by rewrite Hc).
  destruct (getitem_list_unique COLUMNS df) as (ps & -> & Hlen & Hps).
  { rewrite Hc. apply NoDup_COLUMNS. }
  { by rewrite Hc. }
  cbn [fmap option_fmap option_map]. f_equal.
  unfold fillna. cbn [columns values]. rewrite Hc. f_equal.
  assert (Hps' : ps = seq 0 14).
  { apply list_eq. intros k.
    destruct (decide (k < 14)) as [Hlt|Hge].
    - destruct (lookup_lt_is_Some_2 COLUMNS k Hlt) as [c Hk].
      destruct (Hps k c Hk) as (j & -> & Hj). rewrite Hc in Hj.
      rewrite lookup_seq_lt by done. cbn [Nat.add]. f_equal.
      by apply (NoDup_lookup _ _ _ _ NoDup_COLUMNS Hj).
    - rewrite lookup_seq_ge by lia. apply lookup_ge_None.
      change (length COLUMNS) with 14 in Hlen. lia. }
  rewrite Hps'. do 2 f_equal.
  rewrite <- (list_fmap_id (values df)) at 2.
  apply list_fmap_ext. intros i r Hr.
  apply list_elem_of_lookup_2 in Hr.
  pose proof (proj1 (frame_ok_alt df) Hok r Hr) as Hl. rewrite Hc in Hl.
  change (length COLUMNS) with 14 in Hl. rewrite <- Hl. apply cells_all.
Qed.

Lemma frame_ok_pick (cs : list pystr) (ps : list nat) (vs : list (list cell)) :
  length ps = length cs ->
  frame_ok {| columns := cs; values := (fun r => cell_at r <$> ps) <$> vs |}.
Proof.
  intros Hlen. unfold frame_ok. cbn [columns values].
  apply Forall_forall. intros r' Hr'.
  apply list_elem_of_fmap in Hr' as (r & -> & _).
  rewrite length_fmap. exact Hlen.
Qed.

(** What the coercion returns is a frame with the schema's columns in which
    the missing values were filled in. *)
Lemma coerce_shape (df df' : DataFrame) :
  NoDup (columns df) -> coerce df = Some df' ->
  ∃ d, df' = fillna (CStr []) d ∧ columns d = COLUMNS ∧ frame_ok d.
Proof.
  intros Hnd Hco.
  destruct (add_missing_spec df) as [Hc Hv].
  set (miss := missing_of COLUMNS df) in *.
  assert (Hmiss : ∀ c, c ∈ miss ↔ (c ∉ columns df) ∧ c ∈ COLUMNS).
  { intros c. unfold miss, missing_of. by rewrite list_elem_of_filter. }
  assert (Hnd2 : NoDup (columns (add_missing df))).
  { rewrite Hc. apply NoDup_app. split; [done|]. split.
    - intros c Hin Hm. by apply Hmiss in Hm as [? _].
    - apply NoDup_filter, NoDup_COLUMNS. }
  assert (Hall : ∀ c, c ∈ COLUMNS -> c ∈ columns (add_missing df)).
  { intros c Hin. rewrite Hc, elem_of_app.
    destruct (decide (c ∈ columns df)); [by left|]. right. by apply Hmiss. }
  destruct (getitem_list_unique COLUMNS (add_missing df) Hnd2 Hall)
    as (ps & Hget & Hlen & _).
  set (d := {| columns := COLUMNS;
              values := (fun r => cell_at r <$> ps) <$> values (add_missing df) |}) in *.
  assert (Hco' : coerce df = Some (fillna (CStr []) d)).
  { unfold coerce. by rewrite Hget. }
  exists d. split; [congruence|]. split; [reflexivity|].
  by apply frame_ok_pick.
Qed.

End ReimportFacts.

(** X12: loading a frame that already has the 14 schema columns, in schema
    order, installs that frame with nothing changed but its missing values,
    which become empty strings.  So the coercion of [load_data] is
    idempotent: applied to a frame it produced, it returns that frame, and
    loading it again leaves the tab as the first load left it. *)
Theorem load_data_again (rt : Runtime) (picked : pystr) (df : DataFrame)
    (tab : CompanyTab) :
  picked ≠ [] ->
  (columns df = COLUMNS -> frame_ok df ->
     _df (model (load_data rt picked (inr df) tab)) = fillna (CStr []) df)
  ∧ (NoDup (columns df) ->
     ∀ df', coerce df = Some df' ->
       coerce df' = Some df'
       ∧ load_data rt picked (inr df') (load_data rt picked (inr df) tab)
         = load_data rt picked (inr df) tab).
Proof.
  intros Hp. destruct picked as [|a picked]; [done|]. split.
  - intros Hc Hok. unfold load_data. rewrite coerce_schema by done.
    by rewrite update_total_model.
  - intros Hnd df' Hco.
    destruct (coerce_shape df df' Hnd Hco) as (d & -> & Hc & Hok).
    assert (Hagain : coerce (fillna (CStr []) d) = Some (fillna (CStr []) d)).
    { rewrite coerce_schema; [by rewrite fillna_fillna|exact Hc|].
      by apply frame_ok_fillna. }
    split; [exact Hagain|].
    unfold load_data. rewrite Hco, Hagain.
    unfold update_total, with_model, with_label. cbn [model _df].
    by destruct (column_tolist AMOUNT (fillna (CStr []) d)).
Qed.

Lemma load_data_again_witness :
  ∃ df', coerce sample_source = Some df' ∧ coerce df' = Some df'.
Proof.
  destruct (coerce sample_source) as [df'|] eqn:E; [|by vm_compute in E].
  destruct (load_data_again latin1_runtime (lit "a.csv") sample_source sample_tab)
    as [_ H]; [done|].
  destruct (H NoDup_sample_source df' E) as [Hagain _].
  exists df'. split; [reflexivity|exact Hagain].
Defined.

(* ===================================================================== *)
(** * Export: the path, and the files it leaves *)
(* ===================================================================== *)

Section ExportFiles.

Context (to_csv : DataFrame -> csv_format -> bytes).

Lemma lstrip_spaces (s : pystr) :
  Forall (fun c => isspace c = true) s -> lstrip s = [].
Proof. induction 1 as [|c s Hc _ IH]; [done|]. cbn [lstrip]. by rewrite Hc. Qed.

(** A text strips to nothing exactly when it is all white space. *)
Lemma strip_nil (s : pystr) :
  strip s = [] ↔ Forall (fun c => isspace c = true) s.
Proof.
  split.
  - intros H. destruct (strip_split s) as (p & q & Hs & Hp & Hq).
    rewrite H in Hs. rewrite Hs. by apply Forall_app.
  - intros H. unfold strip. by rewrite lstrip_spaces.
Qed.

(** [export_csv] with a destination, on a table with the schema's columns:
    the outcome is the outcome of the file operations. *)
Lemma export_csv_save (io : io_script) (tab : CompanyTab) (fs : files) :
  strip (path_edit tab) ≠ [] ->
  columns (_df (model tab)) = COLUMNS ->
  ∃ tab1,
    model tab1 = model tab ∧ path_edit tab1 = path_edit tab
    ∧ total_label tab1 = total_label tab
    ∧ export_csv to_csv io tab fs
      = match save io (strip (path_edit tab))
                (to_csv (normalized (_df (model tab))) (format_of tab)) fs with
        | (Some e, fs') =>
          (ExportError e, show (Critical (lit "Export error") e) tab1, fs')
        | (None, fs') =>
          (Exported,
           show (Information (lit "Exported")
                   (lit "CSV saved:" ++ [LF] ++ strip (path_edit tab))) tab1,
           fs')
        end.
Proof.
  intros Hpath Hcols. unfold export_csv, format_of.
  destruct (strip (path_edit tab)) as [|a path] eqn:Ep; [done|].
  rewrite iban_warnings_schema by (by rewrite normalized_columns).
  set (bad := _ ++ _).
  set (tab1 := match bad with [] => tab | _ => _ end).
  assert (Hf : no_header_chk tab1 = no_header_chk tab
               ∧ bom_chk tab1 = bom_chk tab ∧ crlf_chk tab1 = crlf_chk tab)
    by (subst tab1; by destruct bad).
  destruct Hf as (-> & -> & ->).
  exists tab1. split; [subst tab1; by destruct bad|].
  split; [subst tab1; by destruct bad|].
  split; [subst tab1; by destruct bad|]. reflexivity.
Qed.

Lemma save_remove_fails (io : io_script) (path : pystr) (data old : bytes)
    (fs : files) (msg : pystr) :
  write_fails io = None -> remove_fails io = Some msg ->
  fs !! path = Some old ->
  save io path data fs = (Some msg, <[path ++ lit ".tmp" := data]> fs).
Proof.
  intros Hw Hr Hold. unfold save. rewrite Hw, Hr.
  rewrite lookup_insert_ne by apply tmp_ne_path. by rewrite Hold.
Qed.

Lemma save_replace_fails (io : io_script) (path : pystr) (data : bytes)
    (fs : files) (msg : pystr) :
  write_fails io = None -> replace_fails io = Some msg ->
  remove_fails io = None ∨ fs !! path = None ->
  save io path data fs
  = (Some msg, delete path (<[path ++ lit ".tmp" := data]> fs)).
Proof.
  intros Hw Hr Hrm. unfold save. rewrite Hw, Hr.
  rewrite lookup_insert_ne by apply tmp_ne_path.
  destruct Hrm as [-> | ->]; [by destruct (fs !! path)|done].
Qed.

Lemma save_succeeds (path : pystr) (data : bytes) (fs : files) :
  save no_faults path data fs
  = (None, <[path := data]> (delete (path ++ lit ".tmp") fs)).
Proof.
  pose proof (tmp_ne_path path) as Hne.
  unfold save. cbn [write_fails remove_fails replace_fails no_faults].
  set (tmp := path ++ lit ".tmp") in *.
  assert (Htmp : delete path (<[tmp := data]> fs) !! tmp = Some data).
  { rewrite lookup_delete_ne by done. apply lookup_insert_eq. }
  assert (Hfs : <[path := data]> (delete tmp (delete path (<[tmp := data]> fs)))
                = <[path := data]> (delete tmp fs)).
  { apply map_eq. intros p.
    destruct (decide (p = path)) as [->|Hp]; [by rewrite !lookup_insert_eq|].
    rewrite !lookup_insert_ne by done.
    destruct (decide (p = tmp)) as [->|Hq]; [by rewrite !lookup_delete_eq|].
    rewrite !lookup_delete_ne by done. by rewrite lookup_insert_ne. }
  destruct (<[tmp := data]> fs !! path); by rewrite Htmp, Hfs.
Qed.

End ExportFiles.

(** X13: when the destination field is empty or all white space,
    [export_csv] only shows the warning 'No path': no file is created,
    changed or removed, whatever the table holds and whatever the state of
    the disk.  With any other destination the export goes on and its
    outcome is never 'no path'. *)
Theorem export_without_path (to_csv : DataFrame -> csv_format -> bytes)
    (io : io_script) (tab : CompanyTab) (fs : files) :
  (Forall (fun c => isspace c = true) (path_edit tab) ->
     export_csv to_csv io tab fs
     = (NoPath,
        show (Warning (lit "No path") (lit "Choose a CSV path first.")) tab,
        fs))
  ∧ (¬ Forall (fun c => isspace c = true) (path_edit tab) ->
     (export_csv to_csv io tab fs).1.1 ≠ NoPath).
Proof.
  split.
  - intros H%strip_nil. unfold export_csv. by rewrite H.
  - intros H. rewrite <- strip_nil in H. unfold export_csv.
    destruct (strip (path_edit tab)) as [|a path]; [done|].
    destruct (iban_warnings _) as [col|bad]; [done|].
    by destruct (save _ _ _ _) as [[e|] fs'].
Qed.

Lemma export_without_path_witness :
  export_csv toy_csv disk_full (tab_of [sample_record] (lit "  ")) old_files
  = (NoPath,
     show (Warning (lit "No path") (lit "Choose a CSV path first."))
       (tab_of [sample_record] (lit "  ")),
     old_files).
Proof.
  apply export_without_path. by repeat constructor.
Defined.

(** X14: failures after the data were written.  If [os.remove] fails, the
    export reports the error, the destination still holds its previous
    contents, and the new data are left in the temporary file.  If
    [os.replace] fails, the export reports the error and the new data are in
    the temporary file, but the destination no longer exists: its previous
    contents were removed before the replacement was tried.  No other file
    is touched in either case. *)
Theorem export_late_failure (to_csv : DataFrame -> csv_format -> bytes)
    (io : io_script) (tab : CompanyTab) (fs : files) :
  strip (path_edit tab) ≠ [] ->
  columns (_df (model tab)) = COLUMNS ->
  write_fails io = None ->
  let path := strip (path_edit tab) in
  let tmp := path ++ lit ".tmp" in
  let data := to_csv (normalized (_df (model tab))) (format_of tab) in
  (∀ msg old, remove_fails io = Some msg -> fs !! path = Some old ->
     ∃ tab' fs',
       export_csv to_csv io tab fs = (ExportError msg, tab', fs')
       ∧ last (dialogs tab') = Some (Critical (lit "Export error") msg)
       ∧ fs' !! path = Some old
       ∧ fs' !! tmp = Some data
       ∧ ∀ p, p ≠ tmp -> fs' !! p = fs !! p)
  ∧ (∀ msg, replace_fails io = Some msg ->
       remove_fails io = None ∨ fs !! path = None ->
       ∃ tab' fs',
         export_csv to_csv io tab fs = (ExportError msg, tab', fs')
         ∧ last (dialogs tab') = Some (Critical (lit "Export error") msg)
         ∧ fs' !! path = None
         ∧ fs' !! tmp = Some data
         ∧ ∀ p, p ≠ path -> p ≠ tmp -> fs' !! p = fs !! p).
Proof.
  intros Hpath Hcols Hw path tmp data.
  destruct (export_csv_save to_csv io tab fs Hpath Hcols) as (tab1 & _ & _ & _ & He).
  pose proof (tmp_ne_path path) as Hne. fold path data in He. fold tmp in Hne.
  split.
  - intros msg old Hr Hold.
    rewrite (save_remove_fails io path data old fs msg Hw Hr Hold) in He.
    fold tmp in He.
    eexists _, _. split; [exact He|]. split; [apply last_snoc|].
    split; [by rewrite lookup_insert_ne|].
    split; [apply lookup_insert_eq|].
    intros p Hp. by rewrite lookup_insert_ne.
  - intros msg Hr Hrm.
    rewrite (save_replace_fails io path data fs msg Hw Hr Hrm) in He.
    fold tmp in He.
    eexists _, _. split; [exact He|]. split; [apply last_snoc|].
    split; [apply lookup_delete_eq|].
    split; [by rewrite lookup_delete_ne, lookup_insert_eq|].
    intros p Hp Hq. by rewrite lookup_delete_ne, lookup_insert_ne.
Qed.

Lemma export_late_failure_witness :
  ∃ tab' fs',
    export_csv toy_csv
      {| write_fails := None; remove_fails := None;
         replace_fails := Some (lit "Permission denied") |}
      sample_tab old_files
    = (ExportError (lit "Permission denied"), tab', fs')
    ∧ old_files !! lit "out.csv" = Some (lit "previous export")
    ∧ fs' !! lit "out.csv" = None.
Proof.
  destruct (export_late_failure toy_csv
              {| write_fails := None; remove_fails := None;
                 replace_fails := Some (lit "Permission denied") |}
              sample_tab old_files) as [_ H].
  - by vm_compute.
  - reflexivity.
  - reflexivity.
  - destruct (H (lit "Permission denied")) as (tab' & fs' & He & _ & Hgone & _).
    + reflexivity.
    + by left.
    + exists tab', fs'. split; [exact He|]. split; [by vm_compute|exact Hgone].
Defined.

(** X15: an export that meets no failure leaves exactly these files: the
    destination with the data written, no temporary file (a file that had
    the temporary file's name before the export is gone), and every other
    file as it was.  The last dialog shown is 'Exported', with the
    destination as it was trimmed, and the table, the destination field and
    the total label are not changed. *)
Theorem export_success_files (to_csv : DataFrame -> csv_format -> bytes)
    (tab : CompanyTab) (fs : files) :
  strip (path_edit tab) ≠ [] ->
  columns (_df (model tab)) = COLUMNS ->
  let path := strip (path_edit tab) in
  let data := to_csv (normalized (_df (model tab))) (format_of tab) in
  ∃ tab',
    export_csv to_csv no_faults tab fs
    = (Exported, tab', <[path := data]> (delete (path ++ lit ".tmp") fs))
    ∧ last (dialogs tab')
      = Some (Information (lit "Exported") (lit "CSV saved:" ++ [LF] ++ path))
    ∧ model tab' = model tab
    ∧ path_edit tab' = path_edit tab
    ∧ total_label tab' = total_label tab.
Proof.
  intros Hpath Hcols path data.
  destruct (export_csv_save to_csv no_faults tab fs Hpath Hcols)
    as (tab1 & Hm & Hp & Hl & He).
  fold path data in He. rewrite save_succeeds in He.
  eexists. split; [exact He|]. split; [apply last_snoc|]. done.
Qed.

Lemma export_success_files_witness :
  ∃ tab',
    export_csv toy_csv no_faults sample_tab
      {[ lit "out.csv.tmp" := lit "notes" ]}
    = (Exported, tab',
       {[ lit "out.csv" := toy_csv (normalized (_df (model sample_tab)))
                             (format_of sample_tab) ]}).
Proof.
  destruct (export_success_files toy_csv sample_tab
              {[ lit "out.csv.tmp" := lit "notes" ]}) as (tab' & He & _).
  - by vm_compute.
  - reflexivity.
  - exists tab'. rewrite He. f_equal.
Defined.

(* ===================================================================== *)
(** * [money_to_csv], character by character *)
(* ===================================================================== *)

Section MoneyFacts.

Local Open Scope nat_scope.

Lemma flat_map_flat_map {A B C} (f : B -> list C) (g : A -> list B) (l : list A) :
  flat_map f (flat_map g l) = flat_map (fun x => flat_map f (g x)) l.
Proof.
  induction l as [|x l IH]; [done|]. cbn [flat_map].
  by rewrite flat_map_app, IH.
Qed.

Lemma flat_map_pointwise {A B} (f g : A -> list B) (l : list A) :
  (∀ x, f x = g x) -> flat_map f l = flat_map g l.
Proof. intros H. induction l as [|x l IH]; [done|]. cbn. by rewrite H, IH. Qed.

(** The five replacements of [money_to_csv] on one character. *)
Lemma money_replacements (s : pystr) :
  replace HASH [] (replace COMMA [DOT] (replace DOT [HASH]
    (replace NBSP [] (replace SPACE [] s))))
  = flat_map money_char s.
Proof.
  unfold replace. rewrite !flat_map_flat_map. apply flat_map_pointwise.
  intros c. unfold money_char.
  destruct (N.eqb_spec c SPACE) as [->|H1]; [done|].
  destruct (N.eqb_spec c NBSP) as [->|H2]; [done|].
  destruct (N.eqb_spec c DOT) as [->|H3]; [done|].
  destruct (N.eqb_spec c HASH) as [->|H4]; [done|].
  rewrite bool_decide_eq_false_2 by (by intros [?|[?|[?|?]]]).
  destruct (N.eqb_spec c COMMA) as [->|H5]; [done|].
  rewrite bool_decide_eq_false_2 by done.
  cbn [flat_map app].
  destruct (N.eqb_spec c SPACE); [done|]. cbn [flat_map app].
  destruct (N.eqb_spec c NBSP); [done|]. cbn [flat_map app].
  destruct (N.eqb_spec c DOT); [done|]. cbn [flat_map app].
  destruct (N.eqb_spec c COMMA); [done|]. cbn [flat_map app].
  by destruct (N.eqb_spec c HASH).
Qed.

Lemma filter_flat_map {A} (P : A -> Prop) `{!∀ x, Decision (P x)}
    (g : A -> list A) (l : list A) :
  (∀ x, filter P (g x) = filter P [x]) ->
  filter P (flat_map g l) = filter P l.
Proof.
  intros Hg. induction l as [|x l IH]; [done|]. cbn [flat_map].
  rewrite filter_app, Hg, IH. by rewrite <- filter_app.
Qed.

Lemma filter_spaces (P : N -> Prop) `{!∀ x, Decision (P x)} (s : pystr) :
  (∀ c, P c -> isspace c = false) ->
  Forall (fun c => isspace c = true) s -> filter P s = [].
Proof.
  intros HP. induction 1 as [|c s Hc _ IH]; [done|]. unfold pystr in *.
  rewrite filter_cons, IH. destruct (decide (P c)) as [Hp|]; [|done].
  apply HP in Hp. congruence.
Qed.

End MoneyFacts.

(** X16: [money_to_csv] works character by character on the trimmed text of
    its argument: every space, no-break space, dot and hash sign is dropped,
    every comma becomes a dot, and every other character is kept, in order.
    In particular the digits of the result are the digits of the argument,
    none lost, added or reordered. *)
Theorem money_to_csv_by_character (x : cell) :
  money_to_csv x = flat_map money_char (strip (py_str x))
  ∧ filter (fun c => is_ascii_digit c = true) (money_to_csv x)
    = filter (fun c => is_ascii_digit c = true) (py_str x).
Proof.
  assert (H : money_to_csv x = flat_map money_char (strip (py_str x))).
  { unfold money_to_csv. destruct (strip (py_str x)) as [|a s]; [done|].
    apply money_replacements. }
  split; [exact H|]. rewrite H. unfold pystr in *.
  rewrite (filter_flat_map (fun c => is_ascii_digit c = true) money_char).
  - destruct (strip_split (py_str x)) as (p & q & Hs & Hp & Hq).
    rewrite Hs at 2. unfold pystr in *. rewrite !filter_app.
    rewrite (filter_spaces _ p), (filter_spaces _ q); try done.
    + by rewrite app_nil_r.
    + intros c Hc%ascii_digit_range. unfold isspace.
      repeat match goal with
             | |- context [N.leb ?a ?b] => destruct (N.leb_spec a b); try lia
             | |- context [N.eqb ?a ?b] => destruct (N.eqb_spec a b); try lia
             end; done.
    + intros c Hc%ascii_digit_range. unfold isspace.
      repeat match goal with
             | |- context [N.leb ?a ?b] => destruct (N.leb_spec a b); try lia
             | |- context [N.eqb ?a ?b] => destruct (N.eqb_spec a b); try lia
             end; done.
  - intros c. unfold money_char, pystr in *.
    destruct (bool_decide_reflect (c = SPACE ∨ c = NBSP ∨ c = DOT ∨ c = HASH))
      as [Hc|_].
    + rewrite filter_cons, filter_nil.
      destruct (decide (is_ascii_digit c = true)) as [Hd|]; [|done].
      apply ascii_digit_range in Hd. unfold SPACE, NBSP, DOT, HASH in Hc. lia.
    + destruct (bool_decide_reflect (c = COMMA)) as [->|_]; done.
Qed.

(* ===================================================================== *)
(** * Order numbers written by [add_row] are read back unchanged *)
(* ===================================================================== *)

Section DecimalFacts.






End DecimalFacts.

Section RepeatFacts.

Context (rt : Runtime).


End RepeatFacts.

Section RepeatedNumbers.

Context (rt : Runtime).



End RepeatedNumbers.



(* ===================================================================== *)
(** * The context menu, and the tabs of the main window *)
(* ===================================================================== *)



(** X19: the window never loses its last tab through [remove_tab].  A
    negative index or the answer 'no' changes nothing.  The answer 'yes' for
    a page that exists removes that page and keeps the others in order; if
    it was the only page, a fresh one named 'Company 1', with an empty
    table, takes its place.  The answer 'yes' for a page that does not exist
    raises. *)
Theorem remove_tab_keeps_a_tab (rt : Runtime) (idx : Z) (yes : bool)
    (tabs : list Page) :
  tabs ≠ [] ->
  (∀ tabs', remove_tab rt idx yes tabs = Some tabs' -> tabs' ≠ [])
  ∧ (idx < 0 ∨ yes = false -> remove_tab rt idx yes tabs = Some tabs)
  ∧ (0 <= idx < Z.of_nat (length tabs) -> yes = true ->
     remove_tab rt idx yes tabs
     = Some (if decide (length tabs = 1%nat)
             then [{| tab_text := lit "Company 1"; company_name := lit "Company 1";
                      widget := new_tab rt |}]
             else delete (Z.to_nat idx) tabs))
  ∧ (Z.of_nat (length tabs) <= idx -> yes = true ->
     remove_tab rt idx yes tabs = None).
Proof.
  intros Hne. unfold remove_tab. split; [|split; [|split]].
  - intros tabs'. destruct (idx <? 0); [by intros [= <-]|].
    destruct yes; [|by intros [= <-]].
    destruct (tabs !! Z.to_nat idx) as [p|]; [|done].
    destruct (delete (Z.to_nat idx) tabs) as [|q rest]; by intros [= <-].
  - intros [Hidx| ->].
    + by destruct (Z.ltb_spec idx 0); [|lia].
    + by destruct (idx <? 0).
  - intros Hidx ->. destruct (Z.ltb_spec idx 0); [lia|].
    destruct (lookup_lt_is_Some_2 tabs (Z.to_nat idx)) as [p Hp]; [lia|].
    rewrite Hp.
    destruct (delete (Z.to_nat idx) tabs) as [|q rest] eqn:E.
    + apply (f_equal length) in E. rewrite length_delete in E by (by eexists).
      cbn [length] in E. by rewrite decide_True by lia.
    + apply (f_equal length) in E as El. rewrite length_delete in El by (by eexists).
      cbn [length] in El. by rewrite decide_False by lia.
  - intros Hidx ->. destruct (Z.ltb_spec idx 0); [lia|].
    by rewrite (proj2 (lookup_ge_None tabs (Z.to_nat idx))) by lia.
Qed.

Lemma remove_tab_keeps_a_tab_witness :
  remove_tab latin1_runtime 0 true (add_company_tab latin1_runtime [])
  = Some (add_company_tab latin1_runtime []).
Proof.
  destruct (remove_tab_keeps_a_tab latin1_runtime 0 true
              (add_company_tab latin1_runtime [])) as (_ & _ & H & _).
  - done.
  - rewrite H; [reflexivity|by vm_compute|reflexivity].
Defined.

(** X20: whatever is typed in the name field of a page, the text shown on
    its tab afterwards is the name trimmed of surrounding white space, or
    'Firma' when nothing is left; it is never empty.  The stored company
    name is the trimmed name, empty or not, and the other pages are not
    touched. *)
Theorem tab_title_never_empty (i : nat) (text : pystr) (tabs : list Page)
    (p : Page) :
  tabs !! i = Some p ->
  ∃ p',
    _emit_title_change i text tabs !! i = Some p'
    ∧ tab_text p' ≠ []
    ∧ tab_text p' = (if decide (strip text = []) then lit "Firma" else strip text)
    ∧ strip (tab_text p') = tab_text p'
    ∧ company_name p' = strip text
    ∧ widget p' = widget p
    ∧ (∀ j, j ≠ i -> _emit_title_change i text tabs !! j = tabs !! j)
    ∧ length (_emit_title_change i text tabs) = length tabs.
Proof.
  intros Hp. unfold _emit_title_change, _rename_tab.
  eexists. split; [by rewrite !list_lookup_alter_eq, Hp|].
  cbn [tab_text company_name widget].
  split; [by destruct (strip text)|].
  split; [by destruct (strip text)|].
  split; [|split; [done|split; [done|split]]].
  - destruct (strip text) eqn:E; [reflexivity|]. rewrite <- E. apply strip_idemp.
  - intros j Hj. by rewrite !list_lookup_alter_ne.
  - by rewrite !length_alter.
Qed.

Lemma tab_title_never_empty_witness :
  tab_text <$> _emit_title_change 0 (lit "   ") (add_company_tab latin1_runtime []) !! 0%nat
  = Some (lit "Firma").
Proof.
  destruct (tab_title_never_empty 0 (lit "   ") (add_company_tab latin1_runtime [])
              {| tab_text := lit "Company 1"; company_name := lit "Company 1";
                 widget := new_tab latin1_runtime |})
    as (p' & Hl & _ & Ht & _).
  - reflexivity.
  - rewrite Hl. cbn [fmap option_fmap option_map]. by rewrite Ht.
Defined.

(* ===================================================================== *)
(** * A total that is not a number *)
(* ===================================================================== *)

Section NanFacts.

Context (rt : Runtime).

Lemma fadd_nan_l (v : float) : fadd S754_nan v = S754_nan.
Proof. by destruct v. Qed.

Lemma fadd_nan_r (s : float) : fadd s S754_nan = S754_nan.
Proof. by destruct s. Qed.

Lemma add_amount_nan (y : cell) : add_amount rt S754_nan y = S754_nan.
Proof.
  unfold add_amount. destruct (strip (py_str y)); [done|].
  destruct (py_float rt (money_to_csv y)); [apply fadd_nan_l|done].
Qed.

Lemma amount_sum_nan (ys : list cell) :
  fold_left (add_amount rt) ys S754_nan = S754_nan.
Proof. induction ys as [|y ys IH]; [done|]. cbn [fold_left]. by rewrite add_amount_nan. Qed.

End NanFacts.

(** X21: one amount that [float] reads as not-a-number makes the whole
    total not a number, wherever it stands and whatever the other amounts
    are: the label then reads 'Total: nan'.  A missing value in the amount
    column is such an amount (its text is 'nan'), and so is the text 'NaN'
    typed in a cell. *)
Theorem total_poisoned_by_nan (rt : Runtime) (xs ys : list cell) (x : cell) :
  strip (py_str x) ≠ [] ->
  py_float rt (money_to_csv x) = Some S754_nan ->
  amount_sum rt (xs ++ x :: ys) = S754_nan
  ∧ ∀ tab, amounts tab = Some (xs ++ x :: ys) ->
      total_label (update_total rt tab) = lit "Total: nan".
Proof.
  intros Hne Hnan.
  assert (Hsum : amount_sum rt (xs ++ x :: ys) = S754_nan).
  { rewrite amount_sum_app. cbn [fold_left].
    assert (add_amount rt (amount_sum rt xs) x = S754_nan) as ->.
    { unfold add_amount. destruct (strip (py_str x)); [done|].
      rewrite Hnan. apply fadd_nan_r. }
    apply amount_sum_nan. }
  split; [exact Hsum|].
  intros tab Ha. unfold amounts in Ha. unfold update_total. rewrite Ha.
  cbn [total_label with_label]. by rewrite Hsum.
Qed.

Lemma total_poisoned_by_nan_witness :
  amount_sum latin1_runtime ([text "10,00"] ++ CNaN :: [text "5,50"]) = S754_nan
  ∧ amount_sum latin1_runtime ([] ++ text " NaN" :: [text "1"]) = S754_nan.
Proof.
  split.
  - apply (total_poisoned_by_nan latin1_runtime [text "10,00"] [text "5,50"] CNaN);
      by vm_compute.
  - apply (total_poisoned_by_nan latin1_runtime [] [text "1"] (text " NaN"));
      by vm_compute.
Defined.
